(** * cat-facts-tree: the topic classifier and its record store

    A shallow embedding of [cat_facts_tree.py]: text normalisation, the
    weighted bag-of-words classifier [determine_facts_hierarchy], and the two
    write paths of [Cat_Facts_Tree_Records] ([save_to_db_clean], [create]).

    Python [str] values are sequences of Unicode code points; dictionaries are
    association lists in insertion order (the classifier depends on the order
    in which [dict.items()] enumerates the topic model); exceptions are the
    [Raise] branch of a result type. *)

From Stdlib Require Import List ZArith NArith String Ascii Bool Lia.
Import ListNotations.

Local Open Scope Z_scope.

(* ================================================================== *)
(** * Python strings *)

Definition char := N.
Definition str := list char.

(** An ASCII literal of the source as a [str]. *)
Definition py (s : string) : str := map N_of_ascii (list_ascii_of_string s).

Fixpoint str_eqb (a b : str) : bool :=
  match a, b with
  | [], [] => true
  | x :: a', y :: b' => N.eqb x y && str_eqb a' b'
  | _, _ => false
  end.

Definition mem_char (c : char) (s : str) : bool := existsb (N.eqb c) s.

(** [str.isspace] on one code point: the characters [str.strip()] removes. *)
Definition isspace (c : char) : bool :=
  (((9 <=? c) && (c <=? 13)) || ((28 <=? c) && (c <=? 32))
   || (c =? 133) || (c =? 160) || (c =? 5760)
   || ((8192 <=? c) && (c <=? 8202))
   || (c =? 8232) || (c =? 8233) || (c =? 8239) || (c =? 8287)
   || (c =? 12288))%N.

Fixpoint lstrip (s : str) : str :=
  match s with
  | [] => []
  | c :: s' => if isspace c then lstrip s' else s
  end.

Definition rstrip (s : str) : str := rev (lstrip (rev s)).

Definition strip (s : str) : str := rstrip (lstrip s).

(** [s.replace(old, new)] for a one-character [old], the only form the
    source uses. *)
Definition replace (old : char) (new : str) (s : str) : str :=
  flat_map (fun c => if N.eqb c old then new else [c]) s.

(** [s.split(sep)] for a one-character separator: never the empty list,
    and empty tokens between adjacent separators. *)
Fixpoint split (sep : char) (s : str) : list str :=
  match s with
  | [] => [[]]
  | c :: s' =>
      if N.eqb c sep then [] :: split sep s'
      else match split sep s' with
           | [] => [[c]]
           | w :: ws => (c :: w) :: ws
           end
  end.

(** [sep.join(parts)]. *)
Fixpoint join (sep : str) (parts : list str) : str :=
  match parts with
  | [] => []
  | [p] => p
  | p :: rest => p ++ sep ++ join sep rest
  end.

(** [string.punctuation]: the 32 ASCII punctuation characters, in order. *)
Definition punctuation : str :=
  [33; 34; 35; 36; 37; 38; 39; 40; 41; 42; 43; 44; 45; 46; 47;
   58; 59; 60; 61; 62; 63; 64; 91; 92; 93; 94; 95; 96;
   123; 124; 125; 126]%N.

(** [text.translate(str.maketrans({key: None for key in table}))]. *)
Definition translate_delete (table : str) (text : str) : str :=
  filter (fun c => negb (mem_char c table)) text.

Definition rsquo : char := 8217%N.      (* U+2019 *)
Definition ldquo : char := 8220%N.      (* U+201C *)
Definition apostrophe : char := 39%N.
Definition dquote : char := 34%N.
Definition rparen : char := 41%N.
Definition lparen : char := 40%N.
Definition hyphen : char := 45%N.
Definition space : char := 32%N.

(** ASCII lowercasing, the part of [str.lower] that is fixed by the
    language; it serves as the reference on ASCII text. *)
Definition ascii_lower_char (c : char) : char :=
  if ((65 <=? c) && (c <=? 90))%N then (c + 32)%N else c.

Definition ascii_lower (s : str) : str := map ascii_lower_char s.

Definition is_ascii (c : char) : Prop := (c < 128)%N.

(* ================================================================== *)
(** * Exceptions *)

Inductive pykey : Type :=
| KInt (z : Z)
| KStr (s : str).

Inductive exn : Type :=
| KeyError (key : pykey)
| TypeError
| AttributeError
| NameError (name : str)
| ProgrammingError.

Inductive result (A : Type) : Type :=
| Ok (a : A)
| Raise (e : exn).

Arguments Ok {A} a.
Arguments Raise {A} e.

Definition bind {A B : Type} (c : result A) (k : A -> result B) : result B :=
  match c with
  | Ok a => k a
  | Raise e => Raise e
  end.

Notation "x <- c ;; k" := (bind c (fun x => k))
  (at level 61, c at next level, right associativity).

(* ================================================================== *)
(** * Insertion-ordered dictionaries *)

Definition dict (V : Type) := list (str * V).

Fixpoint dict_get {V : Type} (d : dict V) (k : str) : option V :=
  match d with
  | [] => None
  | (k', v) :: d' => if str_eqb k' k then Some v else dict_get d' k
  end.

(** [d[k] = v]: an existing key keeps its position, a new key goes last. *)
Fixpoint dict_set {V : Type} (d : dict V) (k : str) (v : V) : dict V :=
  match d with
  | [] => [(k, v)]
  | (k', v') :: d' =>
      if str_eqb k' k then (k', v) :: d' else (k', v') :: dict_set d' k v
  end.

(* ================================================================== *)
(** * Text normalisation *)

Section Normalizer.

(** [str.lower] on arbitrary Unicode text is the runtime's, fixed by its
    case tables. *)
Variable lower : str -> str.

Definition normalize_text (text : str) : str :=
  let table := punctuation in
  let normalized_text := translate_delete table text in
  let normalized_text := strip (lower normalized_text) in
  let normalized_text := replace rsquo [] normalized_text in
  let normalized_text := replace apostrophe [] normalized_text in
  let normalized_text := replace dquote [] normalized_text in
  let normalized_text := replace rparen [] normalized_text in
  let normalized_text := replace lparen [] normalized_text in
  let normalized_text := replace ldquo [] normalized_text in
  normalized_text.

(** The token list of a fact: [_fact.replace('-', ' ').split(' ')]. *)
Definition tokenize (fact : str) : list str :=
  let _fact := normalize_text fact in
  split space (replace hyphen [space] _fact).

End Normalizer.

(* ================================================================== *)
(** * The topic model *)

(** One entry of [weighted_topic_vals]; each of the three keys may be
    absent from the entry's dictionary. *)
Record topic_vals : Type := {
  t_weight : option Z;
  t_matches : option (list str);
  t_parents : option (list str)
}.

Definition words (l : list string) : list str := map py l.

Definition cat_matches : list str :=
  words ["animal"; "animals"; "pet"; "pets"; "feline"; "felines"; "cats";
         "kitten"; "kittens"; "kitty"]%string.

Definition person_matches : list str :=
  words ["people"; "human"; "humans"; "persons"; "caretakers"; "caretaker";
         "owner"; "owners"]%string.

Definition appearance_matches : list str :=
  words ["cute"; "look"; "color"; "hair"; "adorable"; "small"; "big";
         "large"; "size"; "fat"; "skinny"; "strong"; "robust"; "muscular";
         "muscle"; "hard"; "soft"; "breed"; "type"; "bred"; "grown"; "grow";
         "head"; "breeds"; "largest"; "smallest"; "larger"; "smaller";
         "biggest"; "smallest"; "bigger"; "smaller"; "softest"; "softer";
         "hariest"; "harier"; "fluffiest"; "fluffier"; "hardest"; "harder";
         "paw"; "paws"; "feet"; "foot"; "arm"; "tail"; "tails"; "claw";
         "claws"; "fluff"; "fur"; "fingers"; "finger"; "toes"; "toe";
         "nails"; "nail"]%string.

Definition personality_matches : list str :=
  words ["cute"; "look"; "color"; "adorable"; "small"; "big"; "large";
         "size"; "fat"; "skinny"; "strong"; "robust"; "muscular"; "muscle";
         "hard"; "soft"]%string.

Definition intelligence_matches : list str :=
  words ["cute"; "look"; "color"; "adorable"; "small"; "big"; "large";
         "size"; "fat"; "skinny"; "strong"; "robust"; "muscular"; "muscle";
         "hard"; "soft"]%string.

Definition health_matches : list str :=
  words ["cute"; "look"; "color"; "hair"; "adorable"; "small"; "big";
         "large"; "size"; "fat"; "skinny"; "strong"; "robust"; "muscular";
         "muscle"; "hard"; "soft"; "life"; "live"; "expectancy";
         "normal"]%string.

Definition activities_matches : list str :=
  words ["run"; "running"; "play"; "playing"; "walk"; "walking"; "stalk";
         "stalking"; "ran"; "played"; "walked"; "stalked"; "talking";
         "talked"; "talks"; "runs"; "plays"; "walks"; "stalks"; "hunts";
         "hunted"; "hunting"; "hunt"; "catch"; "caught"; "catching";
         "catches"; "bites"; "bit"; "bite"; "prey"; "preyed"; "preying";
         "preys"; "meows"; "meowing"; "meowed"; "meow"; "cries"; "crying";
         "cried"; "cry"; "yell"; "yells"; "yelled"; "yell"; "yawn"; "yawns";
         "yawn"; "yawning"; "kill"; "kills"; "killing"; "killed"; "yelling";
         "yawning"]%string.

Definition positive_matches : list str :=
  words ["good"; "great"; "best"; "fantastic"; "incredible"; "wonderful";
         "amazing"; "powerful"; "smart"; "intelligent"; "better"; "healthy";
         "beautiful"; "super"; "superb"; "awesome"; "love"; "loving";
         "fastest"; "fast"; "faster"]%string.

Definition negative_matches : list str :=
  words ["bad"; "lame"; "worst"; "worse"; "stupid"; "dumb"; "pointless";
         "idiotic"; "moronic"; "weird"; "odd"; "goofy"; "terrible"; "awful";
         "unhealthy"; "ugly"; "unhealthy"; "hate"; "hateful"; "slowest";
         "slower"; "slow"]%string.

Definition topic (weight : Z) (parents : list string) (matches : list str)
  : topic_vals :=
  {| t_weight := Some weight;
     t_matches := Some matches;
     t_parents := Some (words parents) |}.

(** The shipped model, in the order the dictionary literal lists it. *)
Definition weighted_topic_vals : dict topic_vals :=
  [ (py "cat", topic 1 ["cat_root"]%string cat_matches);
    (py "misc",
      {| t_weight := Some 1; t_matches := None; t_parents := None |});
    (py "person", topic 1 ["person_root"]%string person_matches);
    (py "appearance", topic 2 ["cat_root"; "cat"]%string appearance_matches);
    (py "personality",
      topic 2 ["cat_root"; "cat"]%string personality_matches);
    (py "intelligence",
      topic 2 ["cat_root"; "cat"]%string intelligence_matches);
    (py "health", topic 2 ["cat_root"; "cat"]%string health_matches);
    (py "activites", topic 2 ["cat_root"; "cat"]%string activities_matches);
    (py "positive_health",
      topic 3 ["cat_root"; "cat"; "health"]%string positive_matches);
    (py "negative_health",
      topic 3 ["cat_root"; "cat"; "health"]%string negative_matches);
    (py "positive_intelligence",
      topic 3 ["cat_root"; "cat"; "intelligence"]%string positive_matches);
    (py "negative_intelligence",
      topic 3 ["cat_root"; "cat"; "intelligence"]%string negative_matches);
    (py "positive_personality",
      topic 3 ["cat_root"; "cat"; "personality"]%string positive_matches);
    (py "negative_personality",
      topic 3 ["cat_root"; "cat"; "personality"]%string negative_matches);
    (py "positive_activities",
      topic 3 ["cat_root"; "cat"; "activities"]%string positive_matches);
    (py "negative_activities",
      topic 3 ["cat_root"; "cat"; "activities"]%string negative_matches) ].

(* ================================================================== *)
(** * Tree results *)

(** The values the ['parents'] key of a node takes: [None] in a root node,
    a list in a classified fact, a string once a write path has joined it. *)
Inductive pyval : Type :=
| PNone
| PStr (s : str)
| PList (l : list str).

(** [str(x)] for a text-or-[None] value. *)
Definition str_of (x : option str) : str :=
  match x with
  | Some s => s
  | None => py "None"
  end.

(** A node dictionary: [fact_results] of a classified fact, or a [_root]. *)
Record entry : Type := {
  n_topic : str;
  n_depth : Z;
  n_parents : pyval;
  n_fact : option str
}.

(** A value of [tree_dicts]: the list of facts of a topic, or a root node. *)
Inductive node : Type :=
| NList (l : list entry)
| NDict (r : entry).

Definition tree := dict node.

(* ================================================================== *)
(** * The classifier *)

Definition large_int : Z := 100000000.

Definition root_suffix : str := py "_root".

(** [vals['weight']]. *)
Definition getitem_weight (vals : topic_vals) : result Z :=
  match t_weight vals with
  | Some w => Ok w
  | None => Raise (KeyError (KStr (py "weight")))
  end.

(** The per-fact locals of [determine_facts_hierarchy]; [fact_results] is
    [None] while the dictionary is still empty. *)
Record scan : Type := {
  found : bool;
  parents : list str;
  topic_name : str;
  fact_results : option entry
}.

Definition scan_init : scan :=
  {| found := false; parents := []; topic_name := [];
     fact_results := None |}.

Section Classifier.

Variable lower : str -> str.

(** [list(set(l))]: the elements of [l] without repetition, in the order
    the runtime's string hashing gives them. *)
Variable list_of_set : list str -> list str.

(** [for match_word in vals['matches']: ...], with [greatest_weight]
    threaded through the iterations. *)
Fixpoint scan_matches (fact token _topic : str) (vals : topic_vals)
    (ms : list str) (greatest_weight : Z) (st : scan) : result (Z * scan) :=
  match ms with
  | [] => Ok (greatest_weight, st)
  | match_word :: ms' =>
      if str_eqb token match_word then
        w <- getitem_weight vals ;;
        if w <? greatest_weight then
          let root := _topic in
          let parents' :=
            match t_parents vals with
            | Some vp => list_of_set ([] ++ vp)
            | None => [] ++ [root]
            end in
          let greatest_weight := w in
          let greatest_weight :=
            if greatest_weight =? large_int then 0 else greatest_weight in
          scan_matches fact token _topic vals ms' greatest_weight
            {| found := true;
               parents := parents';
               topic_name := _topic;
               fact_results :=
                 Some {| n_topic := _topic;
                         n_depth := greatest_weight;
                         n_parents := PList parents';
                         n_fact := Some fact |} |}
        else scan_matches fact token _topic vals ms' greatest_weight st
      else scan_matches fact token _topic vals ms' greatest_weight st
  end.

(** The body of [for _topic, vals in cat_topics_model.items()]. *)
Definition visit_topic (fact token : str) (st : scan)
    (item : str * topic_vals) : result scan :=
  let '(_topic, vals) := item in
  let greatest_weight := large_int in
  if str_eqb _topic token then
    w <- getitem_weight vals ;;
    Ok {| found := true;
          parents := parents st ++ [_topic];
          topic_name := _topic;
          fact_results :=
            Some {| n_topic := _topic;
                    n_depth := w;
                    n_parents := PList [_topic ++ root_suffix];
                    n_fact := Some fact |} |}
  else
    match t_matches vals with
    | Some ms =>
        r <- scan_matches fact token _topic vals ms greatest_weight st ;;
        Ok (snd r)
    | None => Ok st
    end.

Fixpoint scan_topics (fact token : str) (items : dict topic_vals)
    (st : scan) : result scan :=
  match items with
  | [] => Ok st
  | item :: items' =>
      st' <- visit_topic fact token st item ;;
      scan_topics fact token items' st'
  end.

(** [for token in tokens: if not found: ...]. *)
Fixpoint scan_tokens (cat_topics_model : dict topic_vals) (fact : str)
    (tokens : list str) (st : scan) : result scan :=
  match tokens with
  | [] => Ok st
  | token :: tokens' =>
      st' <- (if negb (found st)
              then scan_topics fact token cat_topics_model st
              else Ok st) ;;
      scan_tokens cat_topics_model fact tokens' st'
  end.

(** The locals of one iteration of [for fact in facts] after the token
    loop. *)
Definition classify_fact (cat_topics_model : dict topic_vals) (fact : str)
  : result scan :=
  let tokens := tokenize lower fact in
  scan_tokens cat_topics_model fact tokens scan_init.

(** [fact_results['depth']] and the other reads of the fact's dictionary. *)
Definition get_results (st : scan) : result entry :=
  match fact_results st with
  | Some r => Ok r
  | None => Raise (KeyError (KStr (py "depth")))
  end.

(** [if found: ...]: the fact joins its topic's list; the first fact of a
    topic at depth 1 also creates the topic's root node.  The test
    [fact_results['depth'] is 1] compares a small integer by identity,
    which the runtime answers as equality. *)
Definition insert_fact (tree_dicts : tree) (st : scan) : result tree :=
  if found st then
    let topic := topic_name st in
    match dict_get tree_dicts topic with
    | Some (NList vals) =>
        r <- get_results st ;;
        Ok (dict_set tree_dicts topic (NList (vals ++ [r])))
    | Some (NDict _) => Raise AttributeError
    | None =>
        r <- get_results st ;;
        let tree_dicts :=
          if n_depth r =? 1 then
            dict_set tree_dicts (topic ++ root_suffix)
              (NDict {| n_topic := n_topic r; n_depth := 0;
                        n_parents := PNone; n_fact := None |})
          else tree_dicts in
        Ok (dict_set tree_dicts topic (NList ([] ++ [r])))
    end
  else Ok tree_dicts.

Fixpoint classify_loop (cat_topics_model : dict topic_vals)
    (facts : list str) (tree_dicts : tree) : result tree :=
  match facts with
  | [] => Ok tree_dicts
  | fact :: facts' =>
      st <- classify_fact cat_topics_model fact ;;
      tree_dicts' <- insert_fact tree_dicts st ;;
      classify_loop cat_topics_model facts' tree_dicts'
  end.

(** The closing loop of the function only prints the tree. *)
Definition determine_facts_hierarchy (facts : list str)
    (cat_topics_model : dict topic_vals) : result tree :=
  classify_loop cat_topics_model facts [].

End Classifier.

(** A reference runtime for ASCII text: [ascii_lower] for [str.lower] and
    first-occurrence order for [list(set(l))]. *)
Fixpoint first_seen (l : list str) : list str :=
  match l with
  | [] => []
  | x :: l' => x :: filter (fun y => negb (str_eqb x y)) (first_seen l')
  end.

(* ================================================================== *)
(** * The record store *)

(** The store is seen at its boundary: a table is a list of rows, a
    statement fails only when the table it names is missing or already
    there, and the column widths and the text encoding of the server are
    not part of the model.  The [print] calls of the source are left out
    as well. *)

(** A row of [defaulttable]; the integer columns hold the numbers the
    statement passes as decimal text. *)
Record row : Type := {
  row_id : Z;
  row_depth : Z;
  row_topic : str;
  row_parents : str;
  row_fact : str
}.

(** The table as the connection sees it inside its open transaction
    ([session]) and as the last commit left it ([committed]); [None] when
    the table does not exist.  The driver opens a transaction before the
    first statement and keeps it until [conn.commit()]; it does not look
    at the text of a statement.  [detached] holds when the server has no
    transaction although the driver counts one as open, which is what a
    ROLLBACK sent as a statement leaves: the driver then sends no BEGIN,
    and the server commits every statement as soon as it is done. *)
Record database : Type := {
  committed : option (list row);
  session : option (list row);
  detached : bool
}.

(** Statements run against the connection: they may raise, and they leave
    the connection in the state reached so far. *)
Definition db_action (A : Type) : Type := database -> result A * database.

Definition db_ret {A : Type} (a : A) : db_action A := fun db => (Ok a, db).

Definition db_raise {A : Type} (e : exn) : db_action A :=
  fun db => (Raise e, db).

Definition db_bind {A B : Type} (c : db_action A) (k : A -> db_action B)
  : db_action B :=
  fun db =>
    match c db with
    | (Ok a, db') => k a db'
    | (Raise e, db') => (Raise e, db')
    end.

Notation "x <~ c ;; k" := (db_bind c (fun x => k))
  (at level 61, c at next level, right associativity).

(** [try: c  except Exception: handler]. *)
Definition db_try (c handler : db_action unit) : db_action unit :=
  fun db =>
    match c db with
    | (Ok a, db') => (Ok a, db')
    | (Raise _, db') => handler db'
    end.

(** What a statement that changes the table leaves: inside a transaction
    the change waits for the commit, on a detached connection it is
    committed with the statement. *)
Definition written (db : database) (table : option (list row)) : database :=
  {| committed := if detached db then table else committed db;
     session := table;
     detached := detached db |}.

Definition drop_table : db_action unit :=
  fun db =>
    match session db with
    | Some _ => (Ok tt, written db None)
    | None => (Raise ProgrammingError, db)
    end.

(** [cur.execute("ROLLBACK")]: the statement goes to the server as any
    other, behind the driver's back.  The server gives up what the open
    transaction did and has no transaction from then on; the driver still
    counts one as open. *)
Definition rollback : db_action unit :=
  fun db =>
    (Ok tt, {| committed := committed db;
               session := committed db;
               detached := true |}).

Definition create_table : db_action unit :=
  fun db =>
    match session db with
    | None => (Ok tt, written db (Some []))
    | Some _ => (Raise ProgrammingError, db)
    end.

Definition insert_row (r : row) : db_action unit :=
  fun db =>
    match session db with
    | Some rows => (Ok tt, written db (Some (rows ++ [r])))
    | None => (Raise ProgrammingError, db)
    end.

(** [self.conn.commit()]: the driver ends the transaction it counts as
    open; on a detached connection the server has nothing left to commit
    and answers with a warning. *)
Definition commit : db_action unit :=
  fun db =>
    (Ok tt, {| committed := session db;
               session := session db;
               detached := false |}).

Definition none_text : str := py "none".

Definition comma_space : str := py ", ".

(** [", ".join(x)] for a value that is not [None]: a list joins its
    elements, a string joins its characters. *)
Definition join_parents (x : pyval) : result str :=
  match x with
  | PList l => Ok (join comma_space l)
  | PStr s => Ok (join comma_space (map (fun c => [c]) s))
  | PNone => Raise TypeError
  end.

(** The text stored for the ['parents'] key of a node dictionary, which
    always has the key. *)
Definition parents_text (x : pyval) : result str :=
  match x with
  | PNone => Ok none_text
  | _ => join_parents x
  end.

(** [for _each in data[each]: ...]: one row per fact, ids counting up. *)
Fixpoint save_facts (l : list entry) (index : Z) : db_action Z :=
  match l with
  | [] => db_ret index
  | _each :: l' =>
      fun db =>
        match parents_text (n_parents _each) with
        | Raise e => (Raise e, db)
        | Ok ps =>
            (_ <~ insert_row {| row_id := index;
                                row_depth := n_depth _each;
                                row_topic := n_topic _each;
                                row_parents := ps;
                                row_fact := str_of (n_fact _each) |} ;;
             save_facts l' (index + 1)) db
        end
  end.

(** The body of [for each in data.keys()].  A list goes down the fact
    branch only when [len(node) > 1]; every other node is treated as a root
    dictionary, and [node['parents'] = "none"] on a list is a TypeError. *)
Definition save_node (n : node) (index : Z) : db_action Z :=
  match n with
  | NList l =>
      if 1 <? Z.of_nat (List.length l) then save_facts l index
      else db_raise TypeError
  | NDict r =>
      _ <~ insert_row {| row_id := index;
                         row_depth := n_depth r;
                         row_topic := n_topic r;
                         row_parents := none_text;
                         row_fact := str_of (n_fact r) |} ;;
      db_ret (index + 1)
  end.

Fixpoint save_nodes (data : tree) (index : Z) : db_action Z :=
  match data with
  | [] => db_ret index
  | (_, n) :: data' =>
      index' <~ save_node n index ;;
      save_nodes data' index'
  end.

(** [save_to_db_clean(data)].  When the DROP fails, the handler sends the
    ROLLBACK statement, so the CREATE TABLE and the INSERTs that follow
    run on a detached connection. *)
Definition save_to_db_clean (data : tree) : db_action unit :=
  _ <~ db_try drop_table rollback ;;
  _ <~ create_table ;;
  _ <~ save_nodes data 0 ;;
  commit.

(** ** Incremental create *)

(** A record of the request body; each key may be missing, and ['parents']
    may be present with the value [None]. *)
Record new_fact : Type := {
  f_depth : option Z;
  f_topic : option str;
  f_parents : option pyval;
  f_fact : option str
}.

Definition getitem {A : Type} (key : string) (field : option A) : result A :=
  match field with
  | Some a => Ok a
  | None => Raise (KeyError (KStr (py key)))
  end.

Inductive sqlval : Type :=
| SInt (z : Z)
| SText (s : str).

(** A row as [RealDictCursor] returns it: a dictionary keyed by column
    name, which has no integer keys. *)
Definition RealDictRow := list (pykey * sqlval).

Definition real_dict_row (r : row) : RealDictRow :=
  [ (KStr (py "id"), SInt (row_id r));
    (KStr (py "depth"), SInt (row_depth r));
    (KStr (py "topic"), SText (row_topic r));
    (KStr (py "parents"), SText (row_parents r));
    (KStr (py "fact"), SText (row_fact r)) ].

Definition pykey_eqb (a b : pykey) : bool :=
  match a, b with
  | KInt x, KInt y => x =? y
  | KStr x, KStr y => str_eqb x y
  | _, _ => false
  end.

Fixpoint row_getitem (r : RealDictRow) (k : pykey) : result sqlval :=
  match r with
  | [] => Raise (KeyError k)
  | (k', v) :: r' => if pykey_eqb k' k then Ok v else row_getitem r' k
  end.

(** [ORDER BY ID DESC LIMIT 1]. *)
Fixpoint last_by_id (rows : list row) : option row :=
  match rows with
  | [] => None
  | r :: rows' =>
      match last_by_id rows' with
      | Some r' => if row_id r <? row_id r' then Some r' else Some r
      | None => Some r
      end
  end.

(** [cur.execute(query); row = cur.fetchone()]. *)
Definition fetch_last : db_action (option RealDictRow) :=
  fun db =>
    match session db with
    | Some rows => (Ok (option_map real_dict_row (last_by_id rows)), db)
    | None => (Raise ProgrammingError, db)
    end.

(** [row[0] + 1]; subscripting [None] is a TypeError. *)
Definition next_index (row : option RealDictRow) : result Z :=
  match row with
  | None => Raise TypeError
  | Some r =>
      v <- row_getitem r (KInt 0) ;;
      match v with
      | SInt z => Ok (z + 1)
      | SText _ => Raise TypeError
      end
  end.

(** The ['parents'] handling of [create]: the joined string is assigned to
    the undefined name [eeach]. *)
Definition create_parents (each : new_fact) : result str :=
  match f_parents each with
  | Some PNone => Ok none_text
  | Some x =>
      val <- join_parents x ;;
      Raise (NameError (py "eeach"))
  | None => Ok none_text
  end.

(** [for each in values: ...]; [index] is not advanced. *)
Fixpoint create_loop (values : list new_fact) (index : Z) : db_action unit :=
  match values with
  | [] => db_ret tt
  | each :: values' =>
      fun db =>
        match
          (ps <- create_parents each ;;
           d <- getitem "depth" (f_depth each) ;;
           t <- getitem "topic" (f_topic each) ;;
           f <- getitem "fact" (f_fact each) ;;
           Ok {| row_id := index; row_depth := d; row_topic := t;
                 row_parents := ps; row_fact := f |})
        with
        | Raise e => (Raise e, db)
        | Ok r => (_ <~ insert_row r ;; create_loop values' index) db
        end
  end.

Definition create (values : list new_fact) : db_action unit :=
  row <~ fetch_last ;;
  fun db =>
    match next_index row with
    | Raise e => (Raise e, db)
    | Ok index => (_ <~ create_loop values index ;; commit) db
    end.

(* ================================================================== *)
(** * Vocabulary of the properties *)

(** The characters [normalize_text] deletes wherever they stand. *)
Definition scrubbed (c : char) : bool :=
  mem_char c punctuation || N.eqb c rsquo || N.eqb c ldquo.

(** The token is the own name of some topic of the model. *)
Definition is_name (M : dict topic_vals) (token : str) : bool :=
  existsb (fun item => str_eqb (fst item) token) M.

Definition keyword_of (vals : topic_vals) (token : str) : bool :=
  match t_matches vals with
  | Some ms => existsb (str_eqb token) ms
  | None => false
  end.

(** The token stands in the keyword list of some topic of the model. *)
Definition is_keyword (M : dict topic_vals) (token : str) : bool :=
  existsb (fun item => keyword_of (snd item) token) M.

Definition matched (M : dict topic_vals) (token : str) : bool :=
  is_name M token || is_keyword M token.

(** Every topic of the model has a weight. *)
Definition weighted (M : dict topic_vals) : bool :=
  forallb (fun item => match t_weight (snd item) with
                       | Some _ => true
                       | None => false
                       end) M.

Fixpoint distinct (l : list str) : bool :=
  match l with
  | [] => true
  | x :: l' => negb (existsb (str_eqb x) l') && distinct l'
  end.

Definition ends_with (suffix s : str) : bool :=
  str_eqb (skipn (List.length s - List.length suffix) s) suffix.

(** What the classifier needs of a model to run without an exception and
    keep roots and topics apart: distinct topic names, a weight on every
    topic, no topic name ending in ["_root"]. *)
Definition well_formed (M : dict topic_vals) : bool :=
  distinct (map fst M) && weighted M
  && forallb (fun item => negb (ends_with root_suffix (fst item))) M.

(** No topic name is a keyword of any topic: a name match cannot be
    overwritten within the pass over the topics. *)
Definition names_not_keywords (M : dict topic_vals) : bool :=
  forallb (fun item => negb (is_keyword M (fst item))) M.

(** Once a fact is found, its results name a topic of the model, carry
    that topic's weight as depth, and hold the fact's own text. *)
Definition scan_ok (M : dict topic_vals) (fact : str) (st : scan) : Prop :=
  found st = true ->
  exists vals r,
    In (topic_name st, vals) M
    /\ fact_results st = Some r
    /\ n_topic r = topic_name st
    /\ t_weight vals = Some (n_depth r)
    /\ n_fact r = Some fact.

(** The locals after a token that is a topic's own name and nobody's
    keyword was scanned. *)
Definition anchored (fact : str) (st : scan) (t : str) (w : Z) : scan :=
  {| found := true;
     parents := parents st ++ [t];
     topic_name := t;
     fact_results :=
       Some {| n_topic := t; n_depth := w;
               n_parents := PList [t ++ root_suffix];
               n_fact := Some fact |} |}.

(** A classified fact stands in the tree: some key maps to a list that
    contains it. *)
Definition in_tree (r : entry) (t : tree) : Prop :=
  exists k l, dict_get t k = Some (NList l) /\ In r l.

(** The tree has a root node keyed [T + "_root"]. *)
Definition has_root (T : str) (t : tree) : Prop :=
  exists r, dict_get t (T ++ root_suffix) = Some (NDict r).

(** Lists sit under topic names and hold facts of that topic at the
    topic's weight; root nodes sit under [T + "_root"] for a topic [T] of
    weight 1 that has a list; every listed topic of weight 1 has its
    root. *)
Definition tree_inv (M : dict topic_vals) (t : tree) : Prop :=
  (forall k l, dict_get t k = Some (NList l) ->
     l <> [] /\ exists vals, dict_get M k = Some vals
       /\ forall r, In r l ->
            n_topic r = k /\ t_weight vals = Some (n_depth r))
  /\ (forall k r, dict_get t k = Some (NDict r) ->
        exists T vals l, k = T ++ root_suffix
          /\ dict_get M T = Some vals /\ t_weight vals = Some 1
          /\ dict_get t T = Some (NList l))
  /\ (forall T l vals, dict_get t T = Some (NList l) ->
        dict_get M T = Some vals -> t_weight vals = Some 1 ->
        has_root T t).

(** The classified fact a single fact gives rise to, if any. *)
Definition classified (lower : str -> str)
    (list_of_set : list str -> list str) (M : dict topic_vals) (fact : str)
  : option entry :=
  match classify_fact lower list_of_set M fact with
  | Ok st => if found st then fact_results st else None
  | Raise _ => None
  end.

(** ** Facts worked by hand *)

Definition softest_fur : str :=
  py "My cat's fur is the softest I've ever felt.".

Definition kitten_fur : str := py "The fur of a kitten is soft.".

Definition kittens_appearance : str :=
  py "Kittens change appearance as they grow.".

Definition person_walked : str := py "A person walked in.".

(** The shipped model with one more topic that lists a keyword and has no
    weight. *)
Definition with_weightless_topic : dict topic_vals :=
  weighted_topic_vals
  ++ [ (py "breed",
        {| t_weight := None;
           t_matches := Some (words ["siamese"]%string);
           t_parents := None |}) ].

(** The nodes that [save_to_db_clean] treats as root dictionaries
    although they are lists. *)
Definition short_list (n : node) : bool :=
  match n with
  | NList l => negb (1 <? Z.of_nat (List.length l))
  | NDict _ => false
  end.

(** The exception the opening statements of [create] end in. *)
Definition create_failure (db : database) : exn :=
  match session db with
  | None => ProgrammingError
  | Some [] => TypeError
  | Some (_ :: _) => KeyError (KInt 0)
  end.

(* ================================================================== *)
(** * Reading the store *)

(** [SELECT * FROM defaulttable] and [cur.fetchall()]: the rows as the
    store keeps them, each a dictionary keyed by column name. *)
Definition select_all : db_action (list RealDictRow) :=
  fun db =>
    match session db with
    | Some rows => (Ok (map real_dict_row rows), db)
    | None => (Raise ProgrammingError, db)
    end.

(** [SELECT * FROM defaulttable WHERE Topic = %s] with the key bound. *)
Definition select_topic (key : str) : db_action (list RealDictRow) :=
  fun db =>
    match session db with
    | Some rows =>
        (Ok (map real_dict_row
               (filter (fun r => str_eqb (row_topic r) key) rows)), db)
    | None => (Raise ProgrammingError, db)
    end.

(** [for each in keys: ...; results[each] = rows]. *)
Fixpoint fetch_keys (keys : list str) (results : dict (list RealDictRow))
  : db_action (dict (list RealDictRow)) :=
  match keys with
  | [] => db_ret results
  | each :: keys' =>
      rows <~ select_topic each ;;
      fetch_keys keys' (dict_set results each rows)
  end.

(** [fetch(keys)]; [None] stands for the default argument. *)
Definition fetch (keys : option (list str))
  : db_action (dict (list RealDictRow)) :=
  match keys with
  | None =>
      rows <~ select_all ;;
      db_ret (dict_set [] (py "all") rows)
  | Some keys => fetch_keys keys []
  end.

(** ** The request layer *)

Definition comma : char := 44%N.

(** [get_cat_facts(topics)]; [jsonify] only serialises the result. *)
Definition get_cat_facts (topics : str)
  : db_action (dict (list RealDictRow)) :=
  if str_eqb topics (py "all") then fetch None
  else
    let _topics := split comma topics in
    fetch (Some _topics).

(** [write_new_cat_fact()]: the body is the decoded JSON object, of which
    only the key ['new_cat_facts'] is read. *)
Definition write_new_cat_fact (body : dict (list new_fact))
  : db_action unit :=
  match dict_get body (py "new_cat_facts") with
  | None => db_raise (KeyError (KStr (py "new_cat_facts")))
  | Some vals => create vals
  end.

(* ================================================================== *)
(** * Fetching the facts *)

Definition API_ENDPOINT : str := py "https://catfact.ninja/facts?limit=1000".
Definition MAX_SIZE : Z := 1.
Definition REQ_THREAD_COUNT : Z := 1.

Unset Elimination Schemes.

(** A decoded JSON value as [json.loads] gives it.  A number keeps its
    literal, the code computes with none; an object lists its keys in
    order, each once. *)
Inductive json : Type :=
| JNull
| JBool (b : bool)
| JNumber (literal : str)
| JString (s : str)
| JArray (items : list json)
| JObject (members : list (str * json)).

Set Elimination Schemes.

(** What one request gives: no usable reply ([urlopen], [read] or
    [json.loads] raised), or the decoded value, whatever it is. *)
Inductive response : Type :=
| Unreachable
| Reply (data : json).

(** The exceptions of a task, all caught by its [except Exception]. *)
Inductive task_error : Type :=
| NoReply
| MissingKey (key : str)
| BadType.

(** [value[key]] for a string key: only an object has such keys, and any
    other value answers with a TypeError. *)
Definition subscript (value : json) (key : str) : task_error + json :=
  match value with
  | JObject members =>
      match dict_get members key with
      | Some v => inr v
      | None => inl (MissingKey key)
      end
  | _ => inl BadType
  end.

(** [for item in value]: the elements of an array, the keys of an object,
    the characters of a string; no other value can be iterated. *)
Definition iterate (value : json) : task_error + list json :=
  match value with
  | JArray items => inr items
  | JObject members => inr (map (fun kv => JString (fst kv)) members)
  | JString s => inr (map (fun c => JString [c]) s)
  | _ => inl BadType
  end.

(** [for item in ...: results.append(item['fact'])]: the facts go to
    [results] one at a time, so those before an item without ['fact']
    stay; the value under ['fact'] is appended whatever its type. *)
Fixpoint append_facts (items : list json) (results : list json)
  : option task_error * list json :=
  match items with
  | [] => (None, results)
  | item :: items' =>
      match subscript item (py "fact") with
      | inr fact => append_facts items' (results ++ [fact])
      | inl e => (Some e, results)
      end
  end.

(** The [try] block of one task. *)
Definition fetch_task (r : response) (results : list json)
  : option task_error * list json :=
  match r with
  | Unreachable => (Some NoReply, results)
  | Reply data =>
      match subscript data (py "data") with
      | inl e => (Some e, results)
      | inr value =>
          match iterate value with
          | inl e => (Some e, results)
          | inr items => append_facts items results
          end
      end
  end.

(** [fetch_from_queue(queue, results)] run by one worker: [net] holds the
    replies the network gives to the successive requests (a request
    beyond them has no reply).  An exception of a task is printed and
    dropped.  The function answers the queue, the results and the
    replies that are left. *)
Fixpoint fetch_from_queue (queue : list str) (results : list json)
    (net : list response) : list str * list json * list response :=
  match queue with
  | [] => ([], results, net)
  | task :: queue' =>
      let r := match net with [] => Unreachable | r :: _ => r end in
      let results := snd (fetch_task r results) in
      fetch_from_queue queue' results (tl net)
  end.

(** [make_queue(api_endpoint, max_size)]: [max_size] copies of the
    address ([range] of a non-positive number is empty). *)
Definition make_queue (api_endpoint : str) (max_size : Z) : list str :=
  repeat api_endpoint (Z.to_nat max_size).

(** The strings the values start with. *)
Fixpoint leading_texts (values : list json) : list str :=
  match values with
  | JString s :: values' => s :: leading_texts values'
  | _ => []
  end.

(** Every value is a string. *)
Definition all_texts (values : list json) : bool :=
  forallb (fun v => match v with JString _ => true | _ => false end) values.

Section Pipeline.

Variable lower : str -> str.
Variable list_of_set : list str -> list str.

(** [determine_facts_hierarchy(results, weighted_topic_vals)] on what
    the worker collected.  The loop classifies the strings in turn; at
    the first value that is not a string, [text.translate] in
    [normalize_text] is an AttributeError, unless a fact before it has
    raised already. *)
Definition classify_results (results : list json) : result tree :=
  tree_dicts <- determine_facts_hierarchy lower list_of_set
                  (leading_texts results) weighted_topic_vals ;;
  if all_texts results then Ok tree_dicts else Raise AttributeError.

(** [make_cat_facts_tree()]: the single worker of [REQ_THREAD_COUNT]
    empties the queue, the caller waits for it in [join], then the
    results are classified, outside any [try]. *)
Definition make_cat_facts_tree (net : list response) : result tree :=
  let results := [] in
  let facts_queue := make_queue API_ENDPOINT MAX_SIZE in
  let results := snd (fst (fetch_from_queue facts_queue results net)) in
  classify_results results.

(** The script: build the tree, then write it. *)
Definition main (net : list response) : db_action unit :=
  fun db =>
    match make_cat_facts_tree net with
    | Ok tree => save_to_db_clean tree db
    | Raise e => (Raise e, db)
    end.

End Pipeline.

(* ================================================================== *)
(** * Vocabulary of the further properties *)

(** The topic names or lists the token. *)
Definition hits (item : str * topic_vals) (token : str) : bool :=
  str_eqb (fst item) token || keyword_of (snd item) token.

(** The last topic, in dictionary order, that the token hits. *)
Fixpoint last_hit (items : dict topic_vals) (token : str)
  : option (str * topic_vals) :=
  match items with
  | [] => None
  | item :: items' =>
      match last_hit items' token with
      | Some i => Some i
      | None => if hits item token then Some item else None
      end
  end.

(** The results a hit of weight [w] writes: the root chain for a name,
    the declared parents (or the topic itself) for a keyword. *)
Definition entry_of (list_of_set : list str -> list str) (fact token : str)
    (item : str * topic_vals) (w : Z) : entry :=
  {| n_topic := fst item;
     n_depth := w;
     n_parents :=
       if str_eqb (fst item) token then PList [fst item ++ root_suffix]
       else match t_parents (snd item) with
            | Some vp => PList (list_of_set vp)
            | None => PList [fst item]
            end;
     n_fact := Some fact |}.

(** First matching token, last hitting topic. *)
Definition first_token_last_topic (lower : str -> str)
    (list_of_set : list str -> list str) (M : dict topic_vals) (fact : str)
  : option entry :=
  match find (matched M) (tokenize lower fact) with
  | None => None
  | Some token =>
      match last_hit M token with
      | None => None
      | Some item =>
          option_map (entry_of list_of_set fact token item)
            (t_weight (snd item))
      end
  end.

(** Every topic has a weight, and it is below [large_int]. *)
Definition weights_below (M : dict topic_vals) : bool :=
  forallb (fun item => match t_weight (snd item) with
                       | Some w => w <? large_int
                       | None => false
                       end) M.

(** The facts of a batch that are classified under [T], in batch order. *)
Definition filed_under (lower : str -> str)
    (list_of_set : list str -> list str) (M : dict topic_vals) (T : str)
    (facts : list str) : list entry :=
  flat_map (fun f => match classified lower list_of_set M f with
                     | Some r => if str_eqb (n_topic r) T then [r] else []
                     | None => []
                     end) facts.

(** The list a tree keeps under a key, empty when there is none. *)
Definition list_at (t : tree) (k : str) : list entry :=
  match dict_get t k with
  | Some (NList l) => l
  | _ => []
  end.

(** The node dictionaries of a tree in the order the write visits them. *)
Definition tree_entries (data : tree) : list entry :=
  flat_map (fun kn => match snd kn with
                      | NList l => l
                      | NDict r => [r]
                      end) data.

(** The values a reply contributes before its task fails, if it does:
    those under ['fact'] in the objects that the array under ['data']
    starts with. *)
Fixpoint harvest_items (items : list json) : list json :=
  match items with
  | JObject members :: items' =>
      match dict_get members (py "fact") with
      | Some fact => fact :: harvest_items items'
      | None => []
      end
  | _ => []
  end.

Definition harvest (r : response) : list json :=
  match r with
  | Reply (JObject members) =>
      match dict_get members (py "data") with
      | Some (JArray items) => harvest_items items
      | _ => []
      end
  | _ => []
  end.

(** The reply of the endpoint that carries the given values as facts. *)
Definition page (facts : list json) : response :=
  Reply (JObject
           [ (py "data",
              JArray (map (fun fact => JObject [(py "fact", fact)]) facts)) ]).

(** The clean write started on this connection has its statements
    committed one by one: the connection is detached already, or the
    table is missing, so that the DROP fails and the ROLLBACK statement
    detaches it. *)
Definition commits_at_once (db : database) : bool :=
  detached db || match session db with Some _ => false | None => true end.

(** [n] consecutive ids starting at [index]. *)
Fixpoint count_from (index : Z) (n : nat) : list Z :=
  match n with
  | O => []
  | S n' => index :: count_from (index + 1) n'
  end.

(** The text the clean write stores in the parents column: a root node
    gets ["none"], a fact its parents joined, or ["none"] for [None]. *)
Definition stored_parents (x : pyval) : str :=
  match x with
  | PNone => none_text
  | PList l => join comma_space l
  | PStr s => join comma_space (map (fun c => [c]) s)
  end.

Definition parents_column (data : tree) : list str :=
  flat_map (fun kn => match snd kn with
                      | NList l => map (fun e => stored_parents (n_parents e)) l
                      | NDict _ => [none_text]
                      end) data.

(** No list of the tree is shorter than two facts. *)
Definition writable (data : tree) : bool :=
  forallb (fun kn => negb (short_list (snd kn))) data.

(** The topics of the classified facts of a batch, in batch order. *)
Definition topics_of (lower : str -> str)
    (list_of_set : list str -> list str) (M : dict topic_vals)
    (facts : list str) : list str :=
  flat_map (fun f => match classified lower list_of_set M f with
                     | Some r => [n_topic r]
                     | None => []
                     end) facts.

(** The root node of topic [T]. *)
Definition label (T : str) : entry :=
  {| n_topic := T; n_depth := 0; n_parents := PNone; n_fact := None |}.

(** The entries of the tree that belong to one topic with the facts [l]:
    the root node when the first fact has depth 1, then the list. *)
Definition block (l : list entry) (T : str) : tree :=
  match l with
  | [] => []
  | r :: _ =>
      (if n_depth r =? 1 then [(T ++ root_suffix, NDict (label T))] else [])
      ++ [(T, NList l)]
  end.

(** The tree of a batch written out: the topics in the order of their
    first classified fact, each with its block. *)
Definition layout (lower : str -> str)
    (list_of_set : list str -> list str) (M : dict topic_vals)
    (facts : list str) : tree :=
  flat_map (fun T => block (filed_under lower list_of_set M T facts) T)
    (first_seen (topics_of lower list_of_set M facts)).

(** Every keyword of [a] is a keyword of [b]. *)
Definition keywords_within (a b : topic_vals) : bool :=
  match t_matches a, t_matches b with
  | Some ma, Some mb => forallb (fun m => existsb (str_eqb m) mb) ma
  | None, _ => true
  | _, _ => false
  end.

(** The six topics that share their keyword list with a later topic and
    have an underscore in their name. *)
Definition shadowed_topics : list str :=
  words ["positive_health"; "negative_health"; "positive_intelligence";
         "negative_intelligence"; "positive_personality";
         "negative_personality"]%string.

(* ================================================================== *)
(** * Strings and dictionaries: basic facts *)

Lemma str_eqb_refl (a : str) : str_eqb a a = true.
Proof.
  induction a as [|x a IH]; simpl; [reflexivity|].
  now rewrite N.eqb_refl, IH.
Qed.

Lemma str_eqb_eq (a b : str) : str_eqb a b = true <-> a = b.
Proof.
  split.
  - revert b; induction a as [|x a IH]; intros [|y b] H; simpl in H;
      try discriminate; [reflexivity|].
    apply andb_true_iff in H as [Hx Hab].
    apply N.eqb_eq in Hx. apply IH in Hab. now subst.
  - intros ->. apply str_eqb_refl.
Qed.

Lemma str_eqb_neq (a b : str) : str_eqb a b = false <-> a <> b.
Proof.
  destruct (str_eqb a b) eqn:E.
  - apply str_eqb_eq in E. split; [discriminate | contradiction].
  - split; [|reflexivity]. intros _ H. apply str_eqb_eq in H. congruence.
Qed.

Lemma str_eqb_sym (a b : str) : str_eqb a b = str_eqb b a.
Proof.
  destruct (str_eqb b a) eqn:E.
  - apply str_eqb_eq in E. subst. apply str_eqb_refl.
  - apply str_eqb_neq. apply str_eqb_neq in E. congruence.
Qed.

Lemma mem_char_In (c : char) (s : str) : mem_char c s = true <-> In c s.
Proof.
  unfold mem_char. rewrite existsb_exists. split.
  - intros [x [Hin Hx]]. apply N.eqb_eq in Hx. now subst.
  - intros H. exists c. split; [assumption | apply N.eqb_refl].
Qed.

Section DictFacts.

Context {V : Type}.

Lemma dict_get_set_same (d : dict V) (k : str) (v : V) :
  dict_get (dict_set d k v) k = Some v.
Proof.
  induction d as [|[k' v'] d IH]; simpl.
  - now rewrite str_eqb_refl.
  - destruct (str_eqb k' k) eqn:E; simpl; rewrite E; [reflexivity | exact IH].
Qed.

Lemma dict_get_set_other (d : dict V) (k k' : str) (v : V) :
  k <> k' -> dict_get (dict_set d k v) k' = dict_get d k'.
Proof.
  intros Hne. induction d as [|[k0 v0] d IH]; simpl.
  - apply str_eqb_neq in Hne. now rewrite Hne.
  - destruct (str_eqb k0 k) eqn:E; simpl.
    + apply str_eqb_eq in E. subst k0.
      apply str_eqb_neq in Hne. now rewrite Hne.
    + now rewrite IH.
Qed.

Lemma dict_get_In (d : dict V) (k : str) (v : V) :
  dict_get d k = Some v -> In (k, v) d.
Proof.
  induction d as [|[k0 v0] d IH]; simpl; [discriminate|].
  destruct (str_eqb k0 k) eqn:E.
  - apply str_eqb_eq in E. intros [= ->]. subst. now left.
  - intros H. right. now apply IH.
Qed.

Lemma In_dict_get (d : dict V) (k : str) (v : V) :
  NoDup (map fst d) -> In (k, v) d -> dict_get d k = Some v.
Proof.
  induction d as [|[k0 v0] d IH]; simpl; [contradiction|].
  intros Hnd [Heq | Hin].
  - inversion Heq; subst. now rewrite str_eqb_refl.
  - inversion Hnd as [|? ? Hnot Hnd']; subst.
    destruct (str_eqb k0 k) eqn:E.
    + apply str_eqb_eq in E. subst k0. exfalso. apply Hnot.
      change k with (fst (k, v)). now apply in_map.
    + now apply IH.
Qed.

End DictFacts.

Lemma dict_get_app {V : Type} (a b : dict V) (k : str) :
  dict_get (a ++ b) k
  = match dict_get a k with
    | Some v => Some v
    | None => dict_get b k
    end.
Proof.
  induction a as [|[k0 v0] a IH]; simpl; [reflexivity|].
  now destruct (str_eqb k0 k).
Qed.

(* ================================================================== *)
(** * Normalisation *)

Lemma Forall_lstrip (P : char -> Prop) (s : str) :
  Forall P s -> Forall P (lstrip s).
Proof.
  induction 1 as [|c s Hc Hs IH]; simpl; [constructor|].
  destruct (isspace c); [exact IH | now constructor].
Qed.

Lemma Forall_strip (P : char -> Prop) (s : str) :
  Forall P s -> Forall P (strip s).
Proof.
  intros H. unfold strip, rstrip.
  apply Forall_rev, Forall_lstrip, Forall_rev, Forall_lstrip, H.
Qed.

Lemma lstrip_idempotent (s : str) : lstrip (lstrip s) = lstrip s.
Proof.
  induction s as [|c s IH]; simpl; [reflexivity|].
  destruct (isspace c) eqn:E; [exact IH|]. simpl. now rewrite E.
Qed.

Lemma lstrip_snoc (s : str) (c : char) :
  isspace c = false -> lstrip (s ++ [c]) = lstrip s ++ [c].
Proof.
  intros Hc. induction s as [|x s IH]; simpl.
  - now rewrite Hc.
  - destruct (isspace x); [exact IH | reflexivity].
Qed.

Lemma rstrip_cons (c : char) (s : str) :
  isspace c = false -> rstrip (c :: s) = c :: rstrip s.
Proof.
  intros Hc. unfold rstrip. simpl.
  rewrite lstrip_snoc by assumption. now rewrite rev_app_distr.
Qed.

Lemma rstrip_idempotent (s : str) : rstrip (rstrip s) = rstrip s.
Proof.
  unfold rstrip. now rewrite rev_involutive, lstrip_idempotent.
Qed.

(** A string already stripped on the left stays so when its right end is
    stripped. *)
Lemma lstrip_rstrip_lstrip (s : str) :
  lstrip (rstrip (lstrip s)) = rstrip (lstrip s).
Proof.
  induction s as [|c s IH]; simpl; [reflexivity|].
  destruct (isspace c) eqn:E; [exact IH|].
  rewrite rstrip_cons by assumption. simpl. now rewrite E.
Qed.

Lemma strip_idempotent (s : str) : strip (strip s) = strip s.
Proof.
  unfold strip. now rewrite lstrip_rstrip_lstrip, rstrip_idempotent.
Qed.

Lemma replace_absent (x : char) (s : str) :
  ~ In x s -> replace x [] s = s.
Proof.
  unfold replace. induction s as [|c s IH]; simpl; [reflexivity|].
  intros Hnot. destruct (N.eqb_spec c x) as [->|Hne].
  - exfalso. apply Hnot. now left.
  - simpl. f_equal. apply IH. intros Hin. apply Hnot. now right.
Qed.

Lemma translate_delete_clean (table s : str) :
  Forall (fun c => mem_char c table = false) s ->
  translate_delete table s = s.
Proof.
  unfold translate_delete. induction 1 as [|c s Hc Hs IH]; simpl.
  - reflexivity.
  - rewrite Hc. simpl. now rewrite IH.
Qed.

Lemma translate_delete_spec (table s : str) :
  Forall (fun c => mem_char c table = false) (translate_delete table s).
Proof.
  unfold translate_delete. apply Forall_forall. intros c Hin.
  apply filter_In in Hin as [_ Hc]. now apply negb_true_iff in Hc.
Qed.

Lemma translate_delete_In (table s : str) (c : char) :
  In c (translate_delete table s) -> In c s.
Proof.
  unfold translate_delete. intros H. now apply filter_In in H.
Qed.

Lemma scrubbed_false (c : char) :
  scrubbed c = false ->
  mem_char c punctuation = false /\ c <> rsquo /\ c <> ldquo.
Proof.
  unfold scrubbed. intros H.
  apply orb_false_iff in H as [H H3]. apply orb_false_iff in H as [H1 H2].
  apply N.eqb_neq in H2, H3. auto.
Qed.

Lemma unscrubbed_absent (s : str) (x : char) :
  Forall (fun c => scrubbed c = false) s -> scrubbed x = true -> ~ In x s.
Proof.
  intros Hs Hx Hin. rewrite Forall_forall in Hs.
  specialize (Hs x Hin). congruence.
Qed.

(** On text without deleted characters the six replacements change
    nothing. *)
Lemma replacements_clean (t : str) :
  Forall (fun c => scrubbed c = false) t ->
  replace ldquo [] (replace lparen [] (replace rparen []
    (replace dquote [] (replace apostrophe [] (replace rsquo [] t))))) = t.
Proof.
  intros Hc.
  rewrite (replace_absent rsquo)
    by (apply (unscrubbed_absent _ _ Hc); reflexivity).
  rewrite (replace_absent apostrophe)
    by (apply (unscrubbed_absent _ _ Hc); reflexivity).
  rewrite (replace_absent dquote)
    by (apply (unscrubbed_absent _ _ Hc); reflexivity).
  rewrite (replace_absent rparen)
    by (apply (unscrubbed_absent _ _ Hc); reflexivity).
  rewrite (replace_absent lparen)
    by (apply (unscrubbed_absent _ _ Hc); reflexivity).
  now rewrite (replace_absent ldquo)
    by (apply (unscrubbed_absent _ _ Hc); reflexivity).
Qed.

Section NormalizerProperties.

Variable lower : str -> str.

(** What the proof of idempotence uses of [str.lower]: lowering twice is
    lowering once, lowering commutes with stripping white space, and
    lowering brings in none of the deleted characters. *)
Hypothesis lower_idempotent : forall s, lower (lower s) = lower s.
Hypothesis lower_strip : forall s, lower (strip s) = strip (lower s).
Hypothesis lower_clean : forall s,
  Forall (fun c => scrubbed c = false) s ->
  Forall (fun c => scrubbed c = false) (lower s).

Lemma normalize_text_unfold (s : str) :
  Forall (fun c => scrubbed c = false) (translate_delete punctuation s) ->
  normalize_text lower s = strip (lower (translate_delete punctuation s)).
Proof.
  intros Ha. unfold normalize_text. cbv zeta.
  apply replacements_clean. now apply Forall_strip, lower_clean.
Qed.

(** C5 (amended): on every input without the curly quotes U+2019 and
    U+201C, normalising an already normalised string returns it
    unchanged. *)
Theorem normalize_text_idempotent_without_curly_quotes (s : str) :
  ~ In rsquo s -> ~ In ldquo s ->
  normalize_text lower (normalize_text lower s) = normalize_text lower s.
Proof.
  intros Hr Hl.
  set (a := translate_delete punctuation s).
  assert (Ha : Forall (fun c => scrubbed c = false) a).
  { apply Forall_forall. intros c Hin. unfold scrubbed.
    pose proof (translate_delete_spec punctuation s) as Hp.
    rewrite Forall_forall in Hp. rewrite (Hp c Hin). simpl.
    apply translate_delete_In in Hin.
    apply orb_false_iff. split; apply N.eqb_neq; intros ->; contradiction. }
  assert (Hc : Forall (fun c => scrubbed c = false) (strip (lower a)))
    by now apply Forall_strip, lower_clean.
  rewrite (normalize_text_unfold s Ha). fold a.
  assert (Hd : translate_delete punctuation (strip (lower a))
               = strip (lower a)).
  { apply translate_delete_clean. eapply Forall_impl; [|exact Hc].
    intros c H. now apply scrubbed_false in H. }
  rewrite normalize_text_unfold by now rewrite Hd.
  rewrite Hd.
  now rewrite lower_strip, lower_idempotent, strip_idempotent.
Qed.

End NormalizerProperties.

(** ** The reference lowercasing meets the three requirements *)

Ltac split_tests :=
  repeat (match goal with
          | |- context [N.leb ?a ?b] => destruct (N.leb_spec a b)
          | |- context [N.eqb ?a ?b] => destruct (N.eqb_spec a b)
          end; try lia); simpl; try reflexivity; try lia.

Lemma ascii_lower_char_idempotent (c : char) :
  ascii_lower_char (ascii_lower_char c) = ascii_lower_char c.
Proof.
  unfold ascii_lower_char.
  destruct (N.leb_spec 65 c), (N.leb_spec c 90); simpl; split_tests.
Qed.

Lemma isspace_ascii_lower_char (c : char) :
  isspace (ascii_lower_char c) = isspace c.
Proof.
  unfold ascii_lower_char.
  destruct (N.leb_spec 65 c), (N.leb_spec c 90); simpl; try reflexivity.
  unfold isspace. split_tests.
Qed.

Lemma scrubbed_ascii_lower_char (c : char) :
  scrubbed c = false -> scrubbed (ascii_lower_char c) = false.
Proof.
  unfold ascii_lower_char.
  destruct (N.leb_spec 65 c), (N.leb_spec c 90); simpl; try tauto.
  intros _. unfold scrubbed, mem_char, punctuation, rsquo, ldquo. simpl.
  split_tests.
Qed.

Lemma ascii_lower_idempotent (s : str) :
  ascii_lower (ascii_lower s) = ascii_lower s.
Proof.
  unfold ascii_lower. rewrite map_map. apply map_ext.
  apply ascii_lower_char_idempotent.
Qed.

Lemma ascii_lower_lstrip (s : str) :
  ascii_lower (lstrip s) = lstrip (ascii_lower s).
Proof.
  induction s as [|c s IH]; simpl; [reflexivity|].
  rewrite isspace_ascii_lower_char.
  destruct (isspace c); [exact IH | reflexivity].
Qed.

Lemma ascii_lower_strip (s : str) :
  ascii_lower (strip s) = strip (ascii_lower s).
Proof.
  unfold strip, rstrip.
  unfold ascii_lower at 1. rewrite map_rev.
  fold (ascii_lower (lstrip (rev (lstrip s)))).
  rewrite ascii_lower_lstrip. unfold ascii_lower at 1. rewrite map_rev.
  fold (ascii_lower (lstrip s)). now rewrite ascii_lower_lstrip.
Qed.

Lemma ascii_lower_clean (s : str) :
  Forall (fun c => scrubbed c = false) s ->
  Forall (fun c => scrubbed c = false) (ascii_lower s).
Proof.
  induction 1 as [|c s Hc Hs IH]; simpl; constructor;
    [now apply scrubbed_ascii_lower_char | exact IH].
Qed.

(** C5, witness: the amended statement at ["Hello, World!"]. *)
Lemma normalize_text_idempotent_witness :
  normalize_text ascii_lower
    (normalize_text ascii_lower (py "Hello, World!"))
  = normalize_text ascii_lower (py "Hello, World!").
Proof.
  apply (normalize_text_idempotent_without_curly_quotes ascii_lower
           ascii_lower_idempotent ascii_lower_strip ascii_lower_clean);
    vm_compute; intuition discriminate.
Defined.

(** C5, counterexample: the text U+2019, space, [a] normalises to
    space, [a], which normalises to [a]. *)
Lemma normalize_text_not_idempotent :
  normalize_text ascii_lower [rsquo; space; 97%N] = [space; 97%N]
  /\ normalize_text ascii_lower
       (normalize_text ascii_lower [rsquo; space; 97%N]) = [97%N]
  /\ normalize_text ascii_lower
       (normalize_text ascii_lower [rsquo; space; 97%N])
     <> normalize_text ascii_lower [rsquo; space; 97%N].
Proof.
  repeat split; try reflexivity. vm_compute. discriminate.
Qed.

(** ** Normalisation and tokens on sample facts *)

Example normalize_softest_fur :
  normalize_text ascii_lower softest_fur
  = py "my cats fur is the softest ive ever felt".
Proof. reflexivity. Qed.

Example tokenize_softest_fur :
  tokenize ascii_lower softest_fur
  = words ["my"; "cats"; "fur"; "is"; "the"; "softest"; "ive"; "ever";
           "felt"]%string.
Proof. reflexivity. Qed.

(** A hyphen is punctuation, so it is deleted before the tokens are cut;
    two spaces in a row leave an empty token. *)
Example tokenize_hyphen_and_spaces :
  tokenize ascii_lower (py "Well-fed  cats")
  = [py "wellfed"; []; py "cats"].
Proof. reflexivity. Qed.

(* ================================================================== *)
(** * The token scan *)

Lemma distinct_NoDup (l : list str) : distinct l = true -> NoDup l.
Proof.
  induction l as [|x l IH]; simpl; intros H; constructor;
    apply andb_true_iff in H as [Hx Hl].
  - intros Hin. apply negb_true_iff in Hx.
    assert (E : existsb (str_eqb x) l = true)
      by (apply existsb_exists; exists x; split;
          [assumption | apply str_eqb_refl]).
    congruence.
  - now apply IH.
Qed.

Lemma ends_with_app (p suffix : str) : ends_with suffix (p ++ suffix) = true.
Proof.
  unfold ends_with. rewrite length_app.
  replace (List.length p + List.length suffix - List.length suffix)%nat
    with (List.length p + 0)%nat by lia.
  rewrite skipn_app, Nat.add_0_r, skipn_all.
  replace (List.length p - List.length p)%nat with 0%nat by lia.
  simpl. apply str_eqb_refl.
Qed.

Lemma well_formed_spec (M : dict topic_vals) :
  well_formed M = true ->
  NoDup (map fst M)
  /\ (forall k vals, In (k, vals) M -> exists w, t_weight vals = Some w)
  /\ (forall k vals p, In (k, vals) M -> k <> p ++ root_suffix).
Proof.
  unfold well_formed, weighted. intros H.
  apply andb_true_iff in H as [H H3]. apply andb_true_iff in H as [H1 H2].
  rewrite forallb_forall in H2, H3. repeat split.
  - now apply distinct_NoDup.
  - intros k vals Hin. specialize (H2 _ Hin). simpl in H2.
    destruct (t_weight vals) as [w|]; [now exists w | discriminate].
  - intros k vals p Hin ->. specialize (H3 _ Hin). simpl in H3.
    now rewrite ends_with_app in H3.
Qed.

Section ScanFacts.

Variable list_of_set : list str -> list str.
Variable M : dict topic_vals.
Variable fact : str.

Lemma scan_init_ok : scan_ok M fact scan_init.
Proof. intros H. discriminate H. Qed.

Lemma scan_matches_ok (token _topic : str) (vals : topic_vals) (w : Z) :
  t_weight vals = Some w -> In (_topic, vals) M ->
  forall ms gw st,
    gw <= large_int -> scan_ok M fact st ->
    exists gw' st',
      scan_matches list_of_set fact token _topic vals ms gw st = Ok (gw', st')
      /\ gw' <= large_int /\ scan_ok M fact st'.
Proof.
  intros Hw Hin. induction ms as [|m ms IH]; intros gw st Hgw Hst; simpl.
  - now exists gw, st.
  - destruct (str_eqb token m); [|now apply IH].
    unfold getitem_weight. rewrite Hw. simpl.
    destruct (Z.ltb_spec w gw) as [Hlt|Hge]; [|now apply IH].
    assert (E : (w =? large_int) = false) by (apply Z.eqb_neq; lia).
    rewrite E. apply IH; [lia|].
    intros _. simpl. eexists vals, _. repeat split; eauto.
Qed.

Lemma scan_matches_miss (token _topic : str) (vals : topic_vals) :
  forall ms gw st,
    existsb (str_eqb token) ms = false ->
    scan_matches list_of_set fact token _topic vals ms gw st = Ok (gw, st).
Proof.
  induction ms as [|m ms IH]; intros gw st H; simpl in *; [reflexivity|].
  apply orb_false_iff in H as [Hm Hms]. rewrite Hm. now apply IH.
Qed.

Lemma visit_topic_ok (token : str) (st : scan) (item : str * topic_vals) :
  (exists w, t_weight (snd item) = Some w) -> In item M -> scan_ok M fact st ->
  exists st',
    visit_topic list_of_set fact token st item = Ok st' /\ scan_ok M fact st'.
Proof.
  destruct item as [_topic vals]. simpl. intros [w Hw] Hin Hst.
  destruct (str_eqb _topic token).
  - unfold getitem_weight. rewrite Hw. simpl. eexists. split; [reflexivity|].
    intros _. simpl. eexists vals, _. repeat split; eauto.
  - destruct (t_matches vals) as [ms|]; [|now exists st].
    destruct (scan_matches_ok token _topic vals w Hw Hin ms large_int st)
      as (gw' & st' & E & _ & Hst'); [lia | assumption |].
    rewrite E. simpl. now exists st'.
Qed.

(** A topic that neither is the token nor lists it leaves the scan as it
    was. *)
Lemma visit_topic_miss (token : str) (st : scan) (item : str * topic_vals) :
  str_eqb (fst item) token = false -> keyword_of (snd item) token = false ->
  visit_topic list_of_set fact token st item = Ok st.
Proof.
  destruct item as [_topic vals]. simpl. intros Hn Hk. rewrite Hn.
  unfold keyword_of in Hk. destruct (t_matches vals) as [ms|]; [|reflexivity].
  now rewrite scan_matches_miss.
Qed.

Lemma scan_topics_ok (token : str) (items : dict topic_vals) :
  (forall item, In item items ->
     In item M /\ exists w, t_weight (snd item) = Some w) ->
  forall st, scan_ok M fact st ->
  exists st',
    scan_topics list_of_set fact token items st = Ok st' /\ scan_ok M fact st'.
Proof.
  induction items as [|item items IH]; intros Hall st Hst; simpl.
  - now exists st.
  - destruct (Hall item (or_introl eq_refl)) as [Hin Hw].
    destruct (visit_topic_ok token st item Hw Hin Hst) as (st1 & E & Hst1).
    rewrite E. simpl. apply IH; [|assumption].
    intros i Hi. apply Hall. now right.
Qed.

Lemma scan_topics_miss (token : str) (items : dict topic_vals) (st : scan) :
  is_name items token = false -> is_keyword items token = false ->
  scan_topics list_of_set fact token items st = Ok st.
Proof.
  unfold is_name, is_keyword.
  induction items as [|item items IH]; simpl; intros Hn Hk; [reflexivity|].
  apply orb_false_iff in Hn as [Hn1 Hn2].
  apply orb_false_iff in Hk as [Hk1 Hk2].
  rewrite visit_topic_miss by assumption. simpl. now apply IH.
Qed.

End ScanFacts.

Section TokenFacts.

Variable list_of_set : list str -> list str.
Variable M : dict topic_vals.
Variable fact : str.

Lemma scan_tokens_ok (tokens : list str) :
  (forall k vals, In (k, vals) M -> exists w, t_weight vals = Some w) ->
  forall st, scan_ok M fact st ->
  exists st',
    scan_tokens list_of_set M fact tokens st = Ok st' /\ scan_ok M fact st'.
Proof.
  intros HM. induction tokens as [|token tokens IH]; intros st Hst; simpl.
  - now exists st.
  - destruct (found st); simpl; [now apply IH|].
    destruct (scan_topics_ok list_of_set M fact token M) with (st := st)
      as (st1 & E & Hst1); [|assumption|].
    + intros [k vals] Hin. split; [assumption|]. now apply (HM k).
    + rewrite E. simpl. now apply IH.
Qed.

Lemma scan_tokens_found (tokens : list str) (st : scan) :
  found st = true -> scan_tokens list_of_set M fact tokens st = Ok st.
Proof.
  intros Hf. induction tokens as [|token tokens IH]; simpl; [reflexivity|].
  rewrite Hf. simpl. exact IH.
Qed.

Lemma scan_tokens_skip (pre rest : list str) (st : scan) :
  Forall (fun t => matched M t = false) pre ->
  scan_tokens list_of_set M fact (pre ++ rest) st
  = scan_tokens list_of_set M fact rest st.
Proof.
  induction 1 as [|t pre Ht Hpre IH]; simpl; [reflexivity|].
  unfold matched in Ht. apply orb_false_iff in Ht as [Hn Hk].
  destruct (found st) eqn:Hf; simpl; [exact IH|].
  rewrite scan_topics_miss by assumption. simpl. exact IH.
Qed.

Lemma is_name_absent (items : dict topic_vals) (t : str) :
  ~ In t (map fst items) -> is_name items t = false.
Proof.
  unfold is_name. induction items as [|[k v] items IH]; simpl; intros H;
    [reflexivity|].
  apply orb_false_iff. split.
  - apply str_eqb_neq. intros ->. apply H. now left.
  - apply IH. intros Hin. apply H. now right.
Qed.

Lemma scan_topics_anchor (t : str) (vals : topic_vals) (w : Z) :
  t_weight vals = Some w ->
  forall items st,
    NoDup (map fst items) -> is_keyword items t = false ->
    dict_get items t = Some vals ->
    scan_topics list_of_set fact t items st = Ok (anchored fact st t w).
Proof.
  intros Hw. induction items as [|[k v] items IH]; intros st Hnd Hk Hget;
    simpl in *; [discriminate|].
  inversion Hnd as [|? ? Hnot Hnd']; subst.
  unfold is_keyword in Hk. simpl in Hk.
  apply orb_false_iff in Hk as [Hk1 Hk2].
  destruct (str_eqb k t) eqn:E.
  - apply str_eqb_eq in E. subst k. injection Hget as ->.
    unfold getitem_weight. rewrite Hw. simpl.
    apply scan_topics_miss; [now apply is_name_absent | exact Hk2].
  - unfold keyword_of in Hk1.
    destruct (t_matches v) as [ms|].
    + rewrite scan_matches_miss by assumption. simpl. now apply IH.
    + simpl. now apply IH.
Qed.

(** [found] is set only together with the four keys of [fact_results]:
    the read of ['depth'] after the token loop finds the key. *)
Lemma scan_matches_results (token _topic : str) (vals : topic_vals) :
  forall ms gw st r,
    (found st = true -> fact_results st <> None) ->
    scan_matches list_of_set fact token _topic vals ms gw st = Ok r ->
    found (snd r) = true -> fact_results (snd r) <> None.
Proof.
  induction ms as [|m ms IH]; intros gw st r Hst E; simpl in E.
  - injection E as <-. exact Hst.
  - destruct (str_eqb token m); [|now apply (IH gw st)].
    destruct (getitem_weight vals) as [w|e]; simpl in E; [|discriminate].
    destruct (w <? gw); [|now apply (IH gw st)].
    eapply IH; [|exact E]. intros _. discriminate.
Qed.

Lemma scan_topics_results (token : str) (items : dict topic_vals) :
  forall st st',
    (found st = true -> fact_results st <> None) ->
    scan_topics list_of_set fact token items st = Ok st' ->
    found st' = true -> fact_results st' <> None.
Proof.
  induction items as [|[k vals] items IH]; intros st st' Hst E; simpl in E.
  - injection E as <-. exact Hst.
  - destruct (str_eqb k token).
    + destruct (getitem_weight vals) as [w|e]; simpl in E; [|discriminate].
      eapply IH; [|exact E]. intros _. discriminate.
    + destruct (t_matches vals) as [ms|]; [|now apply (IH st)].
      destruct (scan_matches list_of_set fact token k vals ms large_int st)
        as [r|e] eqn:Em; simpl in E; [|discriminate].
      eapply IH; [|exact E].
      now apply (scan_matches_results token k vals ms large_int st r).
Qed.

Lemma scan_tokens_results (tokens : list str) :
  forall st st',
    (found st = true -> fact_results st <> None) ->
    scan_tokens list_of_set M fact tokens st = Ok st' ->
    found st' = true -> fact_results st' <> None.
Proof.
  induction tokens as [|token tokens IH]; intros st st' Hst E; simpl in E.
  - injection E as <-. exact Hst.
  - destruct (found st) eqn:Hf; simpl in E.
    + apply (IH st); [|exact E]. now rewrite Hf.
    + destruct (scan_topics list_of_set fact token M st) as [st1|e] eqn:Et;
        simpl in E; [|discriminate].
      apply (IH st1); [|exact E].
      apply (scan_topics_results token M st); [|exact Et].
      rewrite Hf. discriminate.
Qed.

End TokenFacts.

(* ================================================================== *)
(** * Trees built by the classifier *)

Lemma app_root_neq (T : str) : T <> T ++ root_suffix.
Proof.
  intros H. apply (f_equal (@List.length char)) in H.
  rewrite length_app in H. simpl in H. lia.
Qed.

Lemma app_root_inj (T T' : str) :
  T ++ root_suffix = T' ++ root_suffix -> T = T'.
Proof. apply app_inv_tail. Qed.

Lemma tree_inv_empty (M : dict topic_vals) : tree_inv M [].
Proof. repeat split; intros; discriminate. Qed.

Lemma str_eqb_spec (a b : str) : reflect (a = b) (str_eqb a b).
Proof.
  destruct (str_eqb a b) eqn:E; constructor.
  - now apply str_eqb_eq.
  - now apply str_eqb_neq.
Qed.

Lemma dict_get_set {V : Type} (d : dict V) (k k' : str) (v : V) :
  dict_get (dict_set d k v) k'
  = if str_eqb k k' then Some v else dict_get d k'.
Proof.
  destruct (str_eqb_spec k k') as [<-|Hne].
  - apply dict_get_set_same.
  - now apply dict_get_set_other.
Qed.

Ltac case_key a b :=
  let E := fresh "E" in
  destruct (str_eqb_spec a b) as [E|E]; [try (subst b)|].

Section InsertFacts.

Variable M : dict topic_vals.
Variable fact : str.

Hypothesis M_distinct : NoDup (map fst M).
Hypothesis M_no_root_names :
  forall k vals p, In (k, vals) M -> k <> p ++ root_suffix.

Lemma topic_not_root (k p : str) (vals : topic_vals) :
  dict_get M k = Some vals -> k <> p ++ root_suffix.
Proof. intros H. apply (M_no_root_names k vals). now apply dict_get_In. Qed.

(** Adding a fact to a list that exists. *)
Lemma append_fact_inv (t : tree) (topic : str) (l : list entry) (r : entry)
    (vals : topic_vals) :
  tree_inv M t ->
  dict_get t topic = Some (NList l) ->
  dict_get M topic = Some vals ->
  n_topic r = topic -> t_weight vals = Some (n_depth r) ->
  tree_inv M (dict_set t topic (NList (l ++ [r])))
  /\ forall r0, in_tree r0 (dict_set t topic (NList (l ++ [r])))
                <-> in_tree r0 t \/ r0 = r.
Proof.
  intros (I1 & I2 & I3) Hget HM Htop Hw.
  set (t' := dict_set t topic (NList (l ++ [r]))).
  assert (G : forall k, dict_get t' k
                = if str_eqb topic k then Some (NList (l ++ [r]))
                  else dict_get t k) by (intros; apply dict_get_set).
  split; [split; [|split]|].
  - intros k l' H. rewrite G in H. case_key topic k.
    + injection H as <-. split; [destruct l; discriminate|].
      exists vals. split; [assumption|]. intros r' Hr'.
      apply in_app_or in Hr' as [Hr'|[<-|[]]]; [|now split].
      destruct (I1 _ _ Hget) as (_ & vals' & Hv' & Hall).
      rewrite HM in Hv'. injection Hv' as <-. now apply Hall.
    + now apply I1.
  - intros k r0 H. rewrite G in H. case_key topic k; [discriminate|].
    destruct (I2 _ _ H) as (T & vals' & l0 & -> & HT & HwT & HlT).
    exists T, vals'. case_key topic T.
    + exists (l ++ [r]). repeat split; try assumption.
      now rewrite G, str_eqb_refl.
    + exists l0. repeat split; try assumption.
      rewrite G. now case_key topic T.
  - intros T l' vals' H HT HwT. rewrite G in H. unfold has_root.
    assert (Hne : topic <> T ++ root_suffix)
      by now apply (topic_not_root _ _ vals).
    case_key topic T.
    + destruct (I3 _ _ _ Hget HT HwT) as [r0 Hr0]. exists r0.
      rewrite G. now case_key topic (topic ++ root_suffix).
    + destruct (I3 _ _ _ H HT HwT) as [r0 Hr0]. exists r0.
      rewrite G. now case_key topic (T ++ root_suffix).
  - intros r0. split.
    + intros (k & l' & H & Hin). rewrite G in H. case_key topic k.
      * injection H as <-. apply in_app_or in Hin as [Hin|[<-|[]]].
        -- left. now exists topic, l.
        -- now right.
      * left. now exists k, l'.
    + intros [(k & l' & H & Hin) | ->].
      * case_key topic k.
        -- rewrite Hget in H. injection H as <-. exists topic, (l ++ [r]).
           split; [now rewrite G, str_eqb_refl | apply in_or_app; now left].
        -- exists k, l'. split; [|assumption]. rewrite G. now case_key topic k.
      * exists topic, (l ++ [r]).
        split; [now rewrite G, str_eqb_refl | apply in_or_app; right; now left].
Qed.

(** Opening a new topic, with its root node when the depth is 1. *)
Lemma open_topic_inv (t : tree) (topic : str) (r root : entry)
    (vals : topic_vals) :
  tree_inv M t ->
  dict_get t topic = None ->
  dict_get M topic = Some vals ->
  n_topic r = topic -> t_weight vals = Some (n_depth r) ->
  let t1 := if n_depth r =? 1
            then dict_set t (topic ++ root_suffix) (NDict root) else t in
  tree_inv M (dict_set t1 topic (NList ([] ++ [r])))
  /\ forall r0, in_tree r0 (dict_set t1 topic (NList ([] ++ [r])))
                <-> in_tree r0 t \/ r0 = r.
Proof.
  intros (I1 & I2 & I3) Hget HM Htop Hw t1.
  set (t' := dict_set t1 topic (NList ([] ++ [r]))).
  assert (G : forall k, dict_get t' k
                = if str_eqb topic k then Some (NList [r])
                  else if (n_depth r =? 1) && str_eqb (topic ++ root_suffix) k
                       then Some (NDict root)
                       else dict_get t k).
  { intros k. unfold t', t1. rewrite dict_get_set. simpl.
    destruct (str_eqb topic k); [reflexivity|].
    destruct (n_depth r =? 1); simpl; [apply dict_get_set | reflexivity]. }
  assert (Hroot : forall k l0, dict_get t k = Some (NList l0) ->
                    str_eqb (topic ++ root_suffix) k = false).
  { intros k l0 H. apply str_eqb_neq. intros <-.
    destruct (I1 _ _ H) as (_ & v & Hv & _).
    now apply (topic_not_root _ topic) in Hv. }
  split; [split; [|split]|].
  - intros k l' H. rewrite G in H. case_key topic k.
    + injection H as <-. split; [discriminate|].
      exists vals. split; [assumption|]. intros r' [<-|[]]. now split.
    + destruct ((n_depth r =? 1) && str_eqb (topic ++ root_suffix) k);
        [discriminate | now apply I1].
  - intros k r0 H. rewrite G in H. case_key topic k; [discriminate|].
    destruct ((n_depth r =? 1) && str_eqb (topic ++ root_suffix) k) eqn:Ek.
    + apply andb_true_iff in Ek as [Ed Ek].
      apply str_eqb_eq in Ek. apply Z.eqb_eq in Ed.
      exists topic, vals, [r].
      split; [now symmetry|]. split; [assumption|].
      split; [now rewrite Hw, Ed | now rewrite G, str_eqb_refl].
    + destruct (I2 _ _ H) as (T & vals' & l0 & -> & HT & HwT & HlT).
      exists T, vals', l0. repeat split; try assumption.
      rewrite G. case_key topic T; [congruence|].
      now rewrite (Hroot _ _ HlT), andb_false_r.
  - intros T l' vals' H HT HwT. rewrite G in H. unfold has_root.
    case_key topic T.
    + rewrite HM in HT. injection HT as <-.
      assert (Ed : n_depth r = 1) by congruence.
      exists root. rewrite G. case_key topic (topic ++ root_suffix).
      * now apply app_root_neq in E.
      * now rewrite Ed, str_eqb_refl.
    + destruct ((n_depth r =? 1) && str_eqb (topic ++ root_suffix) T) eqn:Ek;
        [discriminate|].
      destruct (I3 _ _ _ H HT HwT) as [r0 Hr0].
      rewrite G. case_key topic (T ++ root_suffix).
      * now apply (topic_not_root _ T) in HM.
      * destruct ((n_depth r =? 1)
                  && str_eqb (topic ++ root_suffix) (T ++ root_suffix));
          [now exists root | now exists r0].
  - intros r0. split.
    + intros (k & l' & H & Hin). rewrite G in H. case_key topic k.
      * injection H as <-. destruct Hin as [<-|[]]. now right.
      * destruct ((n_depth r =? 1) && str_eqb (topic ++ root_suffix) k);
          [discriminate|]. left. now exists k, l'.
    + intros [(k & l' & H & Hin) | ->].
      * exists k, l'. split; [|assumption]. rewrite G. case_key topic k.
        -- congruence.
        -- now rewrite (Hroot _ _ H), andb_false_r.
      * exists topic, [r]. split; [now rewrite G, str_eqb_refl | now left].
Qed.

(** [insert_fact] raises nothing on a scan that is in order, keeps the
    tree in order, and adds exactly the fact found. *)
Lemma insert_fact_spec (t : tree) (st : scan) :
  tree_inv M t -> scan_ok M fact st ->
  exists t',
    insert_fact t st = Ok t' /\ tree_inv M t'
    /\ forall r0, in_tree r0 t'
         <-> in_tree r0 t \/ (found st = true /\ fact_results st = Some r0).
Proof.
  intros Ht Hst. unfold insert_fact. destruct (found st) eqn:Hf.
  2:{ exists t. split; [reflexivity|]. split; [assumption|].
      intros r0. split; [now left|].
      intros [H|[H _]]; [assumption | discriminate]. }
  destruct (Hst Hf) as (vals & r & Hin & Hr & Htop & Hw & Hfact).
  apply In_dict_get in Hin; [|assumption].
  unfold get_results. rewrite Hr.
  destruct (dict_get t (topic_name st)) as [[l|r1]|] eqn:Hget; simpl.
  - destruct (append_fact_inv t _ l r vals Ht Hget Hin Htop Hw) as [Hinv Hprov].
    eexists. split; [reflexivity|]. split; [assumption|].
    intros r0. rewrite Hprov. split; intros [H|H]; auto.
    + right. now subst.
    + right. destruct H as [_ H]. congruence.
  - exfalso. destruct Ht as (_ & I2 & _).
    destruct (I2 _ _ Hget) as (T & _ & _ & HT & _).
    now apply (topic_not_root _ T) in Hin.
  - destruct (open_topic_inv t _ r
                {| n_topic := n_topic r; n_depth := 0;
                   n_parents := PNone; n_fact := None |}
                vals Ht Hget Hin Htop Hw) as [Hinv Hprov].
    eexists. split; [reflexivity|]. split; [assumption|].
    intros r0. rewrite Hprov. split; intros [H|H]; auto.
    + right. now subst.
    + right. destruct H as [_ H]. congruence.
Qed.

End InsertFacts.

(* ================================================================== *)
(** * Classification of a batch *)

Section BatchFacts.

Variable lower : str -> str.
Variable list_of_set : list str -> list str.

Variable M : dict topic_vals.
Hypothesis M_well_formed : well_formed M = true.

Lemma classify_fact_ok (fact : str) :
  exists st,
    classify_fact lower list_of_set M fact = Ok st /\ scan_ok M fact st.
Proof.
  destruct (well_formed_spec M M_well_formed) as (_ & Hw & _).
  unfold classify_fact. apply scan_tokens_ok; [exact Hw | apply scan_init_ok].
Qed.

Lemma classified_text (fact : str) (r : entry) :
  classified lower list_of_set M fact = Some r -> n_fact r = Some fact.
Proof.
  unfold classified. destruct (classify_fact_ok fact) as (st & E & Hst).
  rewrite E. destruct (found st) eqn:Hf; [|discriminate].
  destruct (Hst Hf) as (_ & r' & _ & Hr & _ & _ & Hfact). congruence.
Qed.

Lemma classify_loop_spec (facts : list str) :
  forall t, tree_inv M t ->
  exists t',
    classify_loop lower list_of_set M facts t = Ok t' /\ tree_inv M t'
    /\ forall r, in_tree r t'
         <-> in_tree r t
             \/ exists f, In f facts
                  /\ classified lower list_of_set M f = Some r.
Proof.
  destruct (well_formed_spec M M_well_formed) as (Hnd & _ & Hroot).
  induction facts as [|fact facts IH]; intros t Ht; simpl.
  - exists t. split; [reflexivity|]. split; [assumption|].
    intros r. split; [now left|]. now intros [H|(f & [] & _)].
  - destruct (classify_fact_ok fact) as (st & E & Hst). rewrite E. simpl.
    destruct (insert_fact_spec M fact Hnd Hroot t st Ht Hst)
      as (t1 & E1 & Ht1 & Hprov1).
    rewrite E1. simpl.
    destruct (IH t1 Ht1) as (t' & E' & Ht' & Hprov').
    exists t'. split; [assumption|]. split; [assumption|].
    intros r. rewrite Hprov', Hprov1. unfold classified at 2.
    split.
    + intros [[H|[Hf Hr]]|(f & Hin & Hc)].
      * now left.
      * right. exists fact. split; [now left|].
        unfold classified. now rewrite E, Hf.
      * right. exists f. split; [now right | assumption].
    + intros [H|(f & [<-|Hin] & Hc)].
      * left. now left.
      * left. right. unfold classified in Hc. rewrite E in Hc.
        destruct (found st); [now split | discriminate].
      * right. now exists f.
Qed.

(** On a well-formed model a batch classifies without an exception; the
    tree is in order and holds exactly the facts its members give rise
    to. *)
Lemma determine_facts_hierarchy_spec (facts : list str) :
  exists t,
    determine_facts_hierarchy lower list_of_set facts M = Ok t
    /\ tree_inv M t
    /\ forall r, in_tree r t
         <-> exists f, In f facts /\ classified lower list_of_set M f = Some r.
Proof.
  destruct (classify_loop_spec facts [] (tree_inv_empty M))
    as (t & E & Ht & Hprov).
  exists t. split; [exact E|]. split; [exact Ht|].
  intros r. rewrite Hprov. split; [|now right].
  intros [(k & l & H & _)|H]; [discriminate | assumption].
Qed.

End BatchFacts.

(** ** The shipped model *)

Lemma shipped_well_formed : well_formed weighted_topic_vals = true.
Proof. vm_compute. reflexivity. Qed.

Lemma shipped_names_not_keywords :
  names_not_keywords weighted_topic_vals = true.
Proof. vm_compute. reflexivity. Qed.

Section ShippedModel.

Variable lower : str -> str.
Variable list_of_set : list str -> list str.

(** C6: with the shipped model every batch of facts classifies into a
    tree without an exception, and the empty batch gives the empty
    tree. *)
Theorem classification_never_raises (facts : list str) :
  (exists t,
     determine_facts_hierarchy lower list_of_set facts weighted_topic_vals
     = Ok t)
  /\ determine_facts_hierarchy lower list_of_set [] weighted_topic_vals
     = Ok [].
Proof.
  split; [|reflexivity].
  destruct (determine_facts_hierarchy_spec lower list_of_set
              weighted_topic_vals shipped_well_formed facts) as (t & E & _).
  now exists t.
Qed.

(** C3: in the tree a batch classifies into, the root node keyed
    [T + "_root"] exists exactly when the tree holds a classified fact of
    topic [T] and depth 1. *)
Theorem root_iff_fact_at_depth_one (facts : list str) (T : str) :
  exists t,
    determine_facts_hierarchy lower list_of_set facts weighted_topic_vals
    = Ok t
    /\ (has_root T t
        <-> exists r, in_tree r t /\ n_topic r = T /\ n_depth r = 1).
Proof.
  destruct (determine_facts_hierarchy_spec lower list_of_set
              weighted_topic_vals shipped_well_formed facts)
    as (t & E & (I1 & I2 & I3) & _).
  exists t. split; [exact E|]. split.
  - intros [r0 Hr0].
    destruct (I2 _ _ Hr0) as (T' & vals & l & HT & HM & Hw & Hl).
    apply app_root_inj in HT. subst T'.
    destruct (I1 _ _ Hl) as (Hne & vals' & HM' & Hall).
    destruct l as [|r l]; [contradiction|].
    exists r. split; [exists T, (r :: l); split; [assumption | now left]|].
    destruct (Hall r (or_introl eq_refl)) as [Ht Hd].
    split; [assumption|]. congruence.
  - intros (r & (k & l & Hl & Hin) & Ht & Hd).
    destruct (I1 _ _ Hl) as (_ & vals & HM & Hall).
    destruct (Hall r Hin) as [Hk Hw]. subst.
    apply (I3 _ l vals); [assumption | assumption | congruence].
Qed.

(** C7: a fact is classified on its own.  In the trees of any two
    batches that contain the fact, the classified facts holding its text
    are the same, namely the one the fact gives rise to by itself. *)
Theorem classification_independent_of_batch (b1 b2 : list str) (f : str) :
  In f b1 -> In f b2 ->
  exists t1 t2,
    determine_facts_hierarchy lower list_of_set b1 weighted_topic_vals
    = Ok t1
    /\ determine_facts_hierarchy lower list_of_set b2 weighted_topic_vals
       = Ok t2
    /\ forall r, n_fact r = Some f ->
         (in_tree r t1 <-> in_tree r t2)
         /\ (in_tree r t1
             <-> classified lower list_of_set weighted_topic_vals f = Some r).
Proof.
  intros H1 H2.
  destruct (determine_facts_hierarchy_spec lower list_of_set
              weighted_topic_vals shipped_well_formed b1)
    as (t1 & E1 & _ & P1).
  destruct (determine_facts_hierarchy_spec lower list_of_set
              weighted_topic_vals shipped_well_formed b2)
    as (t2 & E2 & _ & P2).
  exists t1, t2. split; [exact E1|]. split; [exact E2|].
  intros r Hr.
  assert (K : forall b, In f b ->
            (exists f', In f' b
               /\ classified lower list_of_set weighted_topic_vals f' = Some r)
            <-> classified lower list_of_set weighted_topic_vals f = Some r).
  { intros b Hb. split.
    - intros (f' & _ & Hc).
      pose proof (classified_text lower list_of_set weighted_topic_vals
                    shipped_well_formed f' r Hc) as Ht.
      congruence.
    - intros Hc. now exists f. }
  rewrite P1, P2, (K b1 H1), (K b2 H2). tauto.
Qed.

End ShippedModel.

(* ================================================================== *)
(** * Which topic a fact gets *)

Section FirstMatch.

Variable lower : str -> str.
Variable list_of_set : list str -> list str.

Lemma name_not_keyword (M : dict topic_vals) (t : str) (vals : topic_vals) :
  names_not_keywords M = true -> dict_get M t = Some vals ->
  is_keyword M t = false.
Proof.
  unfold names_not_keywords. intros H Hget. rewrite forallb_forall in H.
  apply dict_get_In in Hget. apply H in Hget. simpl in Hget.
  now apply negb_true_iff in Hget.
Qed.

(** When the first token that matches anything is a topic's own name, the
    scan ends in the anchored state, whatever follows the token. *)
Lemma classify_fact_anchor (M : dict topic_vals) (fact : str)
    (pre post : list str) (t : str) (vals : topic_vals) (w : Z) :
  NoDup (map fst M) -> names_not_keywords M = true ->
  tokenize lower fact = pre ++ t :: post ->
  Forall (fun x => matched M x = false) pre ->
  dict_get M t = Some vals -> t_weight vals = Some w ->
  classify_fact lower list_of_set M fact = Ok (anchored fact scan_init t w).
Proof.
  intros Hnd Hnk Htok Hpre Hget Hw. unfold classify_fact. rewrite Htok.
  rewrite scan_tokens_skip by assumption. simpl.
  rewrite (scan_topics_anchor list_of_set fact t vals w Hw M scan_init Hnd
             (name_not_keyword M t vals Hnk Hget) Hget).
  simpl. now apply scan_tokens_found.
Qed.

(** C2 (amended): with the shipped model, a fact whose first token that
    matches anything (a topic name or a keyword) equals the name of a topic
    is classified under that topic, with the parent list
    [[name + "_root"]] and the topic's weight as depth, whatever the later
    tokens of the fact match. *)
Theorem first_match_anchor_wins (facts : list str) (fact : str)
    (pre post : list str) (t : str) (vals : topic_vals) :
  In fact facts ->
  tokenize lower fact = pre ++ t :: post ->
  Forall (fun x => matched weighted_topic_vals x = false) pre ->
  dict_get weighted_topic_vals t = Some vals ->
  exists w tree,
    t_weight vals = Some w
    /\ determine_facts_hierarchy lower list_of_set facts weighted_topic_vals
       = Ok tree
    /\ in_tree {| n_topic := t; n_depth := w;
                  n_parents := PList [t ++ root_suffix];
                  n_fact := Some fact |} tree
    /\ forall r, in_tree r tree -> n_fact r = Some fact ->
         r = {| n_topic := t; n_depth := w;
                n_parents := PList [t ++ root_suffix];
                n_fact := Some fact |}.
Proof.
  intros Hin Htok Hpre Hget.
  destruct (well_formed_spec _ shipped_well_formed) as (Hnd & Hw & _).
  destruct (Hw t vals (dict_get_In _ _ _ Hget)) as [w Hwt].
  destruct (determine_facts_hierarchy_spec lower list_of_set
              weighted_topic_vals shipped_well_formed facts)
    as (tree & E & _ & P).
  pose proof (classify_fact_anchor weighted_topic_vals fact pre post t vals w
                Hnd shipped_names_not_keywords Htok Hpre Hget Hwt) as Hc.
  assert (Hcl : classified lower list_of_set weighted_topic_vals fact
                = Some {| n_topic := t; n_depth := w;
                          n_parents := PList [t ++ root_suffix];
                          n_fact := Some fact |})
    by (unfold classified; now rewrite Hc).
  exists w, tree. split; [exact Hwt|]. split; [exact E|]. split.
  - apply P. now exists fact.
  - intros r Hr Hfact. apply P in Hr as (f' & _ & Hf').
    pose proof (classified_text lower list_of_set weighted_topic_vals
                  shipped_well_formed f' r Hf') as Ht.
    assert (f' = fact) by congruence. subst f'. congruence.
Qed.

(** On ASCII text [str.lower] is ASCII lowercasing. *)
Hypothesis lower_ascii :
  forall s, Forall is_ascii s -> lower s = ascii_lower s.

Lemma tokenize_ascii (fact : str) :
  Forall is_ascii (translate_delete punctuation fact) ->
  tokenize lower fact = tokenize ascii_lower fact.
Proof.
  intros H. unfold tokenize, normalize_text. cbv zeta.
  now rewrite lower_ascii.
Qed.

Lemma classify_fact_ascii (M : dict topic_vals) (fact : str) :
  Forall is_ascii (translate_delete punctuation fact) ->
  classify_fact lower list_of_set M fact
  = classify_fact ascii_lower list_of_set M fact.
Proof.
  intros H. unfold classify_fact. now rewrite tokenize_ascii.
Qed.

Ltac ascii_text := vm_compute; repeat constructor.

(** C1: on ["The fur of a kitten is soft."], a fact without a topic name
    among its tokens, the classifier stops at the first matching token,
    [fur], and answers [appearance] at depth 2, although [kitten] is a
    keyword of [cat], whose weight is 1. *)
Theorem kitten_fur_gets_the_first_match :
  determine_facts_hierarchy lower list_of_set [kitten_fur]
    weighted_topic_vals
  = Ok [ (py "appearance",
          NList [ {| n_topic := py "appearance";
                     n_depth := 2;
                     n_parents :=
                       PList (list_of_set (words ["cat_root"; "cat"]%string));
                     n_fact := Some kitten_fur |} ]) ]
  /\ Forall (fun token => is_name weighted_topic_vals token = false)
       (tokenize lower kitten_fur)
  /\ In (py "kitten") (tokenize lower kitten_fur)
  /\ exists vals,
       dict_get weighted_topic_vals (py "cat") = Some vals
       /\ t_weight vals = Some 1
       /\ keyword_of vals (py "kitten") = true.
Proof.
  split; [|split; [|split]].
  - unfold determine_facts_hierarchy, classify_loop.
    rewrite classify_fact_ascii by ascii_text.
    vm_compute. reflexivity.
  - rewrite tokenize_ascii by ascii_text.
    vm_compute. repeat constructor.
  - rewrite tokenize_ascii by ascii_text.
    vm_compute. do 4 right. now left.
  - eexists. split; [reflexivity|]. split; reflexivity.
Qed.

(** C8: a fact whose only matching topic lists a keyword and has no
    weight ends the run with KeyError on ['weight']; no depth 0 is
    assigned. *)
Theorem weightless_topic_raises_KeyError :
  determine_facts_hierarchy lower list_of_set [py "A Siamese"]
    with_weightless_topic
  = Raise (KeyError (KStr (py "weight")))
  /\ Forall (fun token =>
       matched weighted_topic_vals token = false)
       (tokenize lower (py "A Siamese")).
Proof.
  split.
  - unfold determine_facts_hierarchy, classify_loop.
    rewrite classify_fact_ascii by ascii_text.
    vm_compute. reflexivity.
  - rewrite tokenize_ascii by ascii_text.
    vm_compute. repeat constructor.
Qed.

(** [list(set(l))] keeps the elements of [l], each once. *)
Hypothesis list_of_set_spec :
  forall l, NoDup (list_of_set l)
            /\ forall x, In x (list_of_set l) <-> In x l.

Lemma list_of_set_singleton (x : str) : list_of_set [x] = [x].
Proof.
  destruct (list_of_set_spec [x]) as [Hnd Hin].
  assert (Hall : forall y, In y (list_of_set [x]) -> y = x).
  { intros y Hy. apply Hin in Hy as [Hy|[]]. now symmetry. }
  assert (Hx : In x (list_of_set [x])) by (apply Hin; now left).
  destruct (list_of_set [x]) as [|a [|b l]].
  - contradiction.
  - now rewrite (Hall a (or_introl eq_refl)).
  - exfalso. inversion Hnd as [|? ? Hnot _]; subst. apply Hnot.
    rewrite (Hall a (or_introl eq_refl)).
    rewrite <- (Hall b (or_intror (or_introl eq_refl))). now left.
Qed.

(** C4 (amended): the fact ["My cat's fur is the softest I've ever
    felt."] is classified under [cat] at depth 1 with the parent list
    [["cat_root"]], and the root node [cat_root] is created: without its
    apostrophe [cat's] is the token [cats], a keyword of [cat], and it
    comes before [fur]. *)
Theorem softest_fur_is_filed_under_cat :
  determine_facts_hierarchy lower list_of_set [softest_fur]
    weighted_topic_vals
  = Ok [ (py "cat_root",
          NDict {| n_topic := py "cat"; n_depth := 0;
                   n_parents := PNone; n_fact := None |});
         (py "cat",
          NList [ {| n_topic := py "cat";
                     n_depth := 1;
                     n_parents := PList [py "cat_root"];
                     n_fact := Some softest_fur |} ]) ].
Proof.
  unfold determine_facts_hierarchy, classify_loop.
  rewrite classify_fact_ascii by ascii_text.
  vm_compute.
  rewrite list_of_set_singleton. reflexivity.
Qed.

End FirstMatch.

(* ================================================================== *)
(** * The reference runtime *)

Lemma first_seen_spec (l : list str) :
  NoDup (first_seen l) /\ forall x, In x (first_seen l) <-> In x l.
Proof.
  induction l as [|a l [IHnd IHin]]; simpl.
  - split; [constructor | tauto].
  - split.
    + constructor.
      * intros H. apply filter_In in H as [_ H].
        now rewrite str_eqb_refl in H.
      * now apply NoDup_filter.
    + intros x. rewrite filter_In, IHin. split.
      * intros [H|[H _]]; [now left | now right].
      * intros [H|H]; [now left|].
        destruct (str_eqb_spec a x) as [E|E]; [now left|].
        right. split; [assumption | reflexivity].
Qed.

Lemma ascii_lower_on_ascii (s : str) :
  Forall is_ascii s -> ascii_lower s = ascii_lower s.
Proof. reflexivity. Qed.

(** C1, witness: the statement on the reference runtime. *)
Lemma kitten_fur_witness :
  determine_facts_hierarchy ascii_lower first_seen [kitten_fur]
    weighted_topic_vals
  = Ok [ (py "appearance",
          NList [ {| n_topic := py "appearance";
                     n_depth := 2;
                     n_parents :=
                       PList (first_seen (words ["cat_root"; "cat"]%string));
                     n_fact := Some kitten_fur |} ]) ]
  /\ Forall (fun token => is_name weighted_topic_vals token = false)
       (tokenize ascii_lower kitten_fur)
  /\ In (py "kitten") (tokenize ascii_lower kitten_fur)
  /\ exists vals,
       dict_get weighted_topic_vals (py "cat") = Some vals
       /\ t_weight vals = Some 1
       /\ keyword_of vals (py "kitten") = true.
Proof.
  apply (kitten_fur_gets_the_first_match ascii_lower first_seen
           ascii_lower_on_ascii).
Defined.

(** C8, witness: the statement on the reference runtime. *)
Lemma weightless_topic_witness :
  determine_facts_hierarchy ascii_lower first_seen [py "A Siamese"]
    with_weightless_topic
  = Raise (KeyError (KStr (py "weight")))
  /\ Forall (fun token =>
       matched weighted_topic_vals token = false)
       (tokenize ascii_lower (py "A Siamese")).
Proof.
  apply (weightless_topic_raises_KeyError ascii_lower first_seen
           ascii_lower_on_ascii).
Defined.

(** C4, witness: the amended statement on the reference runtime. *)
Lemma softest_fur_witness :
  determine_facts_hierarchy ascii_lower first_seen [softest_fur]
    weighted_topic_vals
  = Ok [ (py "cat_root",
          NDict {| n_topic := py "cat"; n_depth := 0;
                   n_parents := PNone; n_fact := None |});
         (py "cat",
          NList [ {| n_topic := py "cat";
                     n_depth := 1;
                     n_parents := PList [py "cat_root"];
                     n_fact := Some softest_fur |} ]) ].
Proof.
  apply (softest_fur_is_filed_under_cat ascii_lower first_seen
           ascii_lower_on_ascii first_seen_spec).
Defined.

(** C4, counterexample: the classified fact has topic [cat], depth 1 and
    the single parent [cat_root]; nothing is filed under [appearance]. *)
Lemma softest_fur_not_under_appearance :
  exists t r,
    determine_facts_hierarchy ascii_lower first_seen [softest_fur]
      weighted_topic_vals = Ok t
    /\ dict_get t (py "cat") = Some (NList [r])
    /\ n_topic r = py "cat" /\ n_depth r = 1
    /\ n_parents r = PList [py "cat_root"]
    /\ n_fact r = Some softest_fur
    /\ dict_get t (py "appearance") = None
    /\ n_topic r <> py "appearance" /\ n_depth r <> 2.
Proof.
  eexists. eexists. split; [vm_compute; reflexivity|].
  split; [vm_compute; reflexivity|].
  repeat split; try reflexivity; vm_compute; discriminate.
Qed.

(** C2, witness: in ["A person walked in."] the first matching token is
    the topic name [person]; the later keyword [walked] changes nothing. *)
Lemma first_match_anchor_witness :
  exists w tree,
    t_weight (topic 1 ["person_root"]%string person_matches) = Some w
    /\ determine_facts_hierarchy ascii_lower first_seen [person_walked]
         weighted_topic_vals = Ok tree
    /\ in_tree {| n_topic := py "person"; n_depth := w;
                  n_parents := PList [py "person" ++ root_suffix];
                  n_fact := Some person_walked |} tree
    /\ forall r, in_tree r tree -> n_fact r = Some person_walked ->
         r = {| n_topic := py "person"; n_depth := w;
                n_parents := PList [py "person" ++ root_suffix];
                n_fact := Some person_walked |}.
Proof.
  apply (first_match_anchor_wins ascii_lower first_seen [person_walked]
           person_walked [py "a"] [py "walked"; py "in"] (py "person")
           (topic 1 ["person_root"]%string person_matches)).
  - now left.
  - vm_compute. reflexivity.
  - repeat constructor.
  - vm_compute. reflexivity.
Defined.

(** C2, counterexample: ["Kittens change appearance as they grow."] has
    the token [appearance], the name of a topic of weight 2, and is
    classified under [cat] at depth 1 with the parent [cat_root]: the
    earlier keyword [kittens] decides. *)
Lemma kittens_appearance_not_anchored :
  In (py "appearance") (tokenize ascii_lower kittens_appearance)
  /\ (exists vals,
        dict_get weighted_topic_vals (py "appearance") = Some vals
        /\ t_weight vals = Some 2)
  /\ determine_facts_hierarchy ascii_lower first_seen [kittens_appearance]
       weighted_topic_vals
     = Ok [ (py "cat_root",
             NDict {| n_topic := py "cat"; n_depth := 0;
                      n_parents := PNone; n_fact := None |});
            (py "cat",
             NList [ {| n_topic := py "cat";
                        n_depth := 1;
                        n_parents := PList [py "cat_root"];
                        n_fact := Some kittens_appearance |} ]) ]
  /\ PList [py "cat_root"] <> PList [py "appearance" ++ root_suffix]
  /\ 1 <> 2.
Proof.
  split; [vm_compute; do 2 right; now left|].
  split; [eexists; split; reflexivity|].
  split; [vm_compute; reflexivity|].
  split; [vm_compute; discriminate | lia].
Qed.

(** C7, witness: the fact about the softest fur in two batches. *)
Lemma classification_independent_witness :
  exists t1 t2,
    determine_facts_hierarchy ascii_lower first_seen
      [softest_fur; kitten_fur] weighted_topic_vals = Ok t1
    /\ determine_facts_hierarchy ascii_lower first_seen
         [person_walked; softest_fur] weighted_topic_vals = Ok t2
    /\ forall r, n_fact r = Some softest_fur ->
         (in_tree r t1 <-> in_tree r t2)
         /\ (in_tree r t1
             <-> classified ascii_lower first_seen weighted_topic_vals
                   softest_fur = Some r).
Proof.
  apply (classification_independent_of_batch ascii_lower first_seen
           [softest_fur; kitten_fur] [person_walked; softest_fur]
           softest_fur).
  - now left.
  - right. now left.
Defined.

(* ================================================================== *)
(** * The clean write *)

Lemma written_written (db : database) (s s' : option (list row)) :
  written (written db s) s' = written db s'.
Proof. unfold written. simpl. now destruct (detached db). Qed.

Lemma insert_row_written (db : database) (rows : list row) (r : row) :
  insert_row r (written db (Some rows))
  = (Ok tt, written db (Some (rows ++ [r]))).
Proof. unfold insert_row. simpl. now rewrite written_written. Qed.

Lemma count_from_app (index : Z) (a b : nat) :
  count_from index (a + b)
  = count_from index a ++ count_from (index + Z.of_nat a) b.
Proof.
  revert index. induction a as [|a IH]; intros index.
  - simpl. now rewrite Z.add_0_r.
  - cbn [Nat.add count_from app]. rewrite IH. do 3 f_equal. lia.
Qed.

Lemma parents_text_stored (x : pyval) :
  parents_text x = Ok (stored_parents x).
Proof. now destruct x. Qed.

Lemma save_facts_rows (l : list entry) :
  forall index db rows,
  exists new,
    save_facts l index (written db (Some rows))
    = (Ok (index + Z.of_nat (List.length l)),
       written db (Some (rows ++ new)))
    /\ map row_id new = count_from index (List.length l)
    /\ map row_topic new = map n_topic l
    /\ map row_depth new = map n_depth l
    /\ map row_parents new = map (fun e => stored_parents (n_parents e)) l
    /\ map row_fact new = map (fun e => str_of (n_fact e)) l.
Proof.
  induction l as [|e l IH]; intros index db rows.
  - exists []. simpl. unfold db_ret.
    now rewrite Z.add_0_r, app_nil_r.
  - cbn [save_facts]. rewrite parents_text_stored.
    unfold db_bind. rewrite insert_row_written.
    destruct (IH (index + 1) db
                (rows ++ [ {| row_id := index; row_depth := n_depth e;
                              row_topic := n_topic e;
                              row_parents := stored_parents (n_parents e);
                              row_fact := str_of (n_fact e) |} ]))
      as (new & E & Hid & Htop & Hdep & Hpar & Hfact).
    exists ({| row_id := index; row_depth := n_depth e;
               row_topic := n_topic e;
               row_parents := stored_parents (n_parents e);
               row_fact := str_of (n_fact e) |} :: new).
    split.
    { rewrite E, <- app_assoc. simpl. do 2 f_equal.
      rewrite Zpos_P_of_succ_nat. lia. }
    simpl. now rewrite Hid, Htop, Hdep, Hpar, Hfact.
Qed.

(** A node that is not a short list gives its rows. *)
Lemma save_node_rows (n : node) (index : Z) (db : database)
    (rows : list row) :
  short_list n = false ->
  exists new,
    save_node n index (written db (Some rows))
    = (Ok (index + Z.of_nat (List.length
               match n with NList l => l | NDict r => [r] end)),
       written db (Some (rows ++ new)))
    /\ map row_id new
       = count_from index
           (List.length match n with NList l => l | NDict r => [r] end)
    /\ map row_topic new
       = map n_topic match n with NList l => l | NDict r => [r] end
    /\ map row_depth new
       = map n_depth match n with NList l => l | NDict r => [r] end
    /\ map row_parents new
       = match n with
         | NList l => map (fun e => stored_parents (n_parents e)) l
         | NDict _ => [none_text]
         end
    /\ map row_fact new
       = map (fun e => str_of (n_fact e))
           match n with NList l => l | NDict r => [r] end.
Proof.
  intros Hn. destruct n as [l|r]; simpl in Hn |- *.
  - apply negb_false_iff in Hn. rewrite Hn. apply save_facts_rows.
  - unfold db_bind. rewrite insert_row_written. unfold db_ret.
    eexists [_]. repeat split.
Qed.

Lemma save_node_short (n : node) (index : Z) (db : database) :
  short_list n = true -> save_node n index db = (Raise TypeError, db).
Proof.
  destruct n as [l|r]; simpl; intros H; [|discriminate].
  apply negb_true_iff in H. now rewrite H.
Qed.

Lemma save_nodes_rows (data : tree) :
  forall index db rows,
  writable data = true ->
  exists new,
    save_nodes data index (written db (Some rows))
    = (Ok (index + Z.of_nat (List.length (tree_entries data))),
       written db (Some (rows ++ new)))
    /\ map row_id new = count_from index (List.length (tree_entries data))
    /\ map row_topic new = map n_topic (tree_entries data)
    /\ map row_depth new = map n_depth (tree_entries data)
    /\ map row_parents new = parents_column data
    /\ map row_fact new
       = map (fun e => str_of (n_fact e)) (tree_entries data).
Proof.
  unfold writable.
  induction data as [|[k n] data IH]; intros index db rows Hw.
  - exists []. simpl. unfold db_ret. now rewrite Z.add_0_r, app_nil_r.
  - simpl in Hw. apply andb_true_iff in Hw as [Hn Hw].
    apply negb_true_iff in Hn.
    cbn [save_nodes]. unfold db_bind.
    destruct (save_node_rows n index db rows Hn)
      as (new1 & E1 & Hid1 & Htop1 & Hdep1 & Hpar1 & Hfact1).
    rewrite E1.
    destruct (IH (index + Z.of_nat (List.length
                    match n with NList l => l | NDict r => [r] end))
                db (rows ++ new1) Hw)
      as (new2 & E2 & Hid2 & Htop2 & Hdep2 & Hpar2 & Hfact2).
    exists (new1 ++ new2). rewrite E2.
    unfold tree_entries, parents_column. cbn [flat_map snd].
    fold (tree_entries data). fold (parents_column data).
    rewrite !map_app, length_app, count_from_app, <- app_assoc.
    rewrite Hid1, Hid2, Htop1, Htop2, Hdep1, Hdep2, Hpar1, Hpar2,
      Hfact1, Hfact2.
    repeat split. do 2 f_equal.
    rewrite Nat2Z.inj_add. lia.
Qed.

(** The loop over the tree stops with TypeError at the first short list;
    the table then holds, after what it held, the rows of the entries
    before that list. *)
Lemma save_nodes_stops (data : tree) :
  forall index db rows,
  writable data = false ->
  exists pre k n post new,
    data = pre ++ (k, n) :: post
    /\ writable pre = true
    /\ short_list n = true
    /\ save_nodes data index (written db (Some rows))
       = (Raise TypeError, written db (Some (rows ++ new)))
    /\ save_nodes pre index (written db (Some rows))
       = (Ok (index + Z.of_nat (List.length (tree_entries pre))),
          written db (Some (rows ++ new)))
    /\ map row_id new = count_from index (List.length (tree_entries pre))
    /\ map row_topic new = map n_topic (tree_entries pre)
    /\ map row_depth new = map n_depth (tree_entries pre)
    /\ map row_parents new = parents_column pre
    /\ map row_fact new
       = map (fun e => str_of (n_fact e)) (tree_entries pre).
Proof.
  induction data as [|[k0 n0] data IH]; intros index db rows Hw;
    [discriminate|].
  destruct (short_list n0) eqn:Hs.
  - exists [], k0, n0, data, [].
    cbn [save_nodes]. unfold db_bind.
    rewrite save_node_short by assumption.
    simpl. unfold db_ret. rewrite Z.add_0_r, app_nil_r. now repeat split.
  - assert (Hw' : writable data = false).
    { unfold writable in Hw |- *. simpl in Hw. now rewrite Hs in Hw. }
    destruct (save_node_rows n0 index db rows Hs)
      as (new1 & E1 & Hid1 & Htop1 & Hdep1 & Hpar1 & Hfact1).
    destruct (IH (index + Z.of_nat (List.length
                    match n0 with NList l => l | NDict r => [r] end))
                db (rows ++ new1) Hw')
      as (pre & k & n & post & new2 & Hdata & Hpre & Hn & E & Epre
          & Hid2 & Htop2 & Hdep2 & Hpar2 & Hfact2).
    exists ((k0, n0) :: pre), k, n, post, (new1 ++ new2).
    cbn [save_nodes]. unfold db_bind. rewrite E1, E, Epre.
    unfold tree_entries, parents_column. cbn [flat_map snd].
    fold (tree_entries pre). fold (parents_column pre).
    rewrite !map_app, length_app, count_from_app, <- app_assoc.
    rewrite Hid1, Hid2, Htop1, Htop2, Hdep1, Hdep2, Hpar1, Hpar2,
      Hfact1, Hfact2.
    repeat split.
    + simpl. now rewrite Hdata.
    + unfold writable in Hpre |- *. simpl. now rewrite Hs.
    + exact Hn.
    + do 2 f_equal. rewrite Nat2Z.inj_add. lia.
Qed.

(** A key that holds a short list is not among the entries before the
    first short list. *)
Lemma short_list_not_before (pre post : tree) (k : str) (f : entry) :
  writable pre = true ->
  dict_get (pre ++ post) k = Some (NList [f]) ->
  dict_get pre k = None.
Proof.
  intros Hw Hget. rewrite dict_get_app in Hget.
  destruct (dict_get pre k) as [n|] eqn:E; [|reflexivity].
  injection Hget as ->. apply dict_get_In in E.
  unfold writable in Hw. rewrite forallb_forall in Hw.
  specialize (Hw _ E). discriminate Hw.
Qed.

Lemma short_list_not_writable (data : tree) (k : str) (f : entry) :
  dict_get data k = Some (NList [f]) -> writable data = false.
Proof.
  intros Hget. destruct (writable data) eqn:Hw; [|reflexivity].
  apply dict_get_In in Hget.
  unfold writable in Hw. rewrite forallb_forall in Hw.
  specialize (Hw _ Hget). discriminate Hw.
Qed.

(** The opening statements of the clean write, from a transaction
    boundary: whatever the table was, it is there and empty, and the
    connection is detached when the DROP has failed. *)
Lemma clean_write_unfold (data : tree) (db : database) :
  session db = committed db ->
  save_to_db_clean data db
  = (let '(r, db') :=
       save_nodes data 0
         (written {| committed := committed db;
                     session := session db;
                     detached := commits_at_once db |} (Some []))
     in match r with
        | Ok _ => (Ok tt, {| committed := session db';
                             session := session db';
                             detached := false |})
        | Raise e => (Raise e, db')
        end).
Proof.
  intros Hdb. destruct db as [c s d]. simpl in Hdb. subst s.
  unfold save_to_db_clean, db_bind, db_try, drop_table, rollback,
    create_table, commit, commits_at_once, written.
  destruct c as [rows0|], d; simpl;
    match goal with
    | |- context [save_nodes data 0 ?x] =>
        destruct (save_nodes data 0 x) as [[i|e] db']; reflexivity
    end.
Qed.

(** C9: when the tree maps a key to a list of exactly one classified
    fact, [save_to_db_clean] raises TypeError: the list goes down the
    root-node branch.  The rows written by then are those of the entries
    before that key, so the fact is in none of them.  The connection
    starts at a transaction boundary.  When the table was there, the
    rows stay inside the open transaction and the committed table is
    left as it was; when it was missing (or the connection detached),
    the new table and those rows are committed. *)
Theorem single_fact_list_raises_TypeError (data : tree) (db : database)
    (k : str) (f : entry) :
  session db = committed db ->
  dict_get data k = Some (NList [f]) ->
  exists rows pre post index,
    save_to_db_clean data db
    = (Raise TypeError,
       {| committed := if commits_at_once db then Some rows
                       else committed db;
          session := Some rows;
          detached := commits_at_once db |})
    /\ data = pre ++ post
    /\ dict_get pre k = None
    /\ save_nodes pre 0
         {| committed := if commits_at_once db then Some []
                         else committed db;
            session := Some [];
            detached := commits_at_once db |}
       = (Ok index,
          {| committed := if commits_at_once db then Some rows
                          else committed db;
             session := Some rows;
             detached := commits_at_once db |})
    /\ map row_fact rows
       = map (fun e => str_of (n_fact e)) (tree_entries pre).
Proof.
  intros Hdb Hget.
  pose proof (short_list_not_writable data k f Hget) as Hw.
  destruct (save_nodes_stops data 0
              {| committed := committed db; session := session db;
                 detached := commits_at_once db |} [] Hw)
    as (pre & k0 & n & post & rows & Hdata & Hpre & Hn & E & Epre
        & _ & _ & _ & _ & Hfact).
  exists rows, pre, ((k0, n) :: post),
    (0 + Z.of_nat (List.length (tree_entries pre))).
  split; [|split; [exact Hdata|split; [|split; [exact Epre|exact Hfact]]]].
  - rewrite clean_write_unfold by assumption. now rewrite E.
  - rewrite Hdata in Hget. exact (short_list_not_before _ _ _ _ Hpre Hget).
Qed.

(** C9, witness: the tree of the single fact about the softest fur,
    written through a fresh connection to a database without the table;
    the table is created and the row of the root node is committed
    before the exception. *)
Lemma single_fact_list_witness :
  exists rows pre post index,
    save_to_db_clean
      [ (py "cat_root",
         NDict {| n_topic := py "cat"; n_depth := 0;
                  n_parents := PNone; n_fact := None |});
        (py "cat",
         NList [ {| n_topic := py "cat"; n_depth := 1;
                    n_parents := PList [py "cat_root"];
                    n_fact := Some softest_fur |} ]) ]
      {| committed := None; session := None; detached := false |}
    = (Raise TypeError,
       {| committed := Some rows; session := Some rows; detached := true |})
    /\ [ (py "cat_root",
          NDict {| n_topic := py "cat"; n_depth := 0;
                   n_parents := PNone; n_fact := None |});
         (py "cat",
          NList [ {| n_topic := py "cat"; n_depth := 1;
                     n_parents := PList [py "cat_root"];
                     n_fact := Some softest_fur |} ]) ]
       = pre ++ post
    /\ dict_get pre (py "cat") = None
    /\ save_nodes pre 0
         {| committed := Some []; session := Some []; detached := true |}
       = (Ok index,
          {| committed := Some rows; session := Some rows;
             detached := true |})
    /\ map row_fact rows
       = map (fun e => str_of (n_fact e)) (tree_entries pre).
Proof.
  apply (single_fact_list_raises_TypeError
           [ (py "cat_root",
              NDict {| n_topic := py "cat"; n_depth := 0;
                       n_parents := PNone; n_fact := None |});
             (py "cat",
              NList [ {| n_topic := py "cat"; n_depth := 1;
                         n_parents := PList [py "cat_root"];
                         n_fact := Some softest_fur |} ]) ]
           {| committed := None; session := None; detached := false |}
           (py "cat")
           {| n_topic := py "cat"; n_depth := 1;
              n_parents := PList [py "cat_root"];
              n_fact := Some softest_fur |}).
  - reflexivity.
  - vm_compute. reflexivity.
Defined.

(** The same tree run on both kinds of store.  Without the table, the
    row of the root node is committed when the exception leaves; with a
    table of one old row, that row is still what is committed. *)
Lemma single_fact_list_runs :
  save_to_db_clean
    [ (py "cat_root",
       NDict {| n_topic := py "cat"; n_depth := 0;
                n_parents := PNone; n_fact := None |});
      (py "cat",
       NList [ {| n_topic := py "cat"; n_depth := 1;
                  n_parents := PList [py "cat_root"];
                  n_fact := Some softest_fur |} ]) ]
    {| committed := None; session := None; detached := false |}
  = (Raise TypeError,
     {| committed := Some [ {| row_id := 0; row_depth := 0;
                               row_topic := py "cat";
                               row_parents := py "none";
                               row_fact := py "None" |} ];
        session := Some [ {| row_id := 0; row_depth := 0;
                             row_topic := py "cat";
                             row_parents := py "none";
                             row_fact := py "None" |} ];
        detached := true |})
  /\ save_to_db_clean
       [ (py "cat_root",
          NDict {| n_topic := py "cat"; n_depth := 0;
                   n_parents := PNone; n_fact := None |});
         (py "cat",
          NList [ {| n_topic := py "cat"; n_depth := 1;
                     n_parents := PList [py "cat_root"];
                     n_fact := Some softest_fur |} ]) ]
       {| committed := Some [ {| row_id := 7; row_depth := 1;
                                 row_topic := py "person";
                                 row_parents := py "person_root";
                                 row_fact := py "old" |} ];
          session := Some [ {| row_id := 7; row_depth := 1;
                               row_topic := py "person";
                               row_parents := py "person_root";
                               row_fact := py "old" |} ];
          detached := false |}
     = (Raise TypeError,
        {| committed := Some [ {| row_id := 7; row_depth := 1;
                                  row_topic := py "person";
                                  row_parents := py "person_root";
                                  row_fact := py "old" |} ];
           session := Some [ {| row_id := 0; row_depth := 0;
                                row_topic := py "cat";
                                row_parents := py "none";
                                row_fact := py "None" |} ];
           detached := false |}).
Proof. split; reflexivity. Qed.

(* ================================================================== *)
(** * The incremental create *)

Lemma last_by_id_cons (r : row) (rows : list row) :
  exists r', last_by_id (r :: rows) = Some r'.
Proof.
  simpl. destruct (last_by_id rows) as [r1|].
  - destruct (row_id r <? row_id r1); eexists; reflexivity.
  - eexists; reflexivity.
Qed.

Lemma real_dict_row_no_index (r : row) (z : Z) :
  row_getitem (real_dict_row r) (KInt z) = Raise (KeyError (KInt z)).
Proof. reflexivity. Qed.

(** The opening statements of [create] raise for every record list and
    leave the store as it was: the last row comes back from a
    [RealDictCursor], so [row[0]] is a KeyError (a TypeError on [None]
    when the table is empty). *)
Lemma create_raises_before_the_loop (values : list new_fact)
    (db : database) :
  create values db = (Raise (create_failure db), db).
Proof.
  unfold create, create_failure, db_bind, fetch_last.
  destruct (session db) as [[|r rows]|]; try reflexivity.
  destruct (last_by_id_cons r rows) as [r' ->]. reflexivity.
Qed.

(** C10: [create] run on one record with a parents list, on an empty
    table and on a table of one row.  It stops at [index = row[0] + 1]
    with TypeError, then KeyError(0), and stores nothing: the loop over
    the records, where such a record meets the undefined name [eeach],
    is not reached. *)
Theorem create_stops_at_the_row_index :
  create [ {| f_depth := Some 1; f_topic := Some (py "cat");
              f_parents := Some (PList [py "cat_root"]);
              f_fact := Some (py "Cats purr.") |} ]
    {| committed := Some []; session := Some []; detached := false |}
  = (Raise TypeError,
     {| committed := Some []; session := Some []; detached := false |})
  /\ create
       [ {| f_depth := Some 1; f_topic := Some (py "cat");
            f_parents := Some (PList [py "cat_root"]);
            f_fact := Some (py "Cats purr.") |} ]
       {| committed := Some [ {| row_id := 0; row_depth := 0;
                                 row_topic := py "cat";
                                 row_parents := py "none";
                                 row_fact := py "None" |} ];
          session := Some [ {| row_id := 0; row_depth := 0;
                               row_topic := py "cat";
                               row_parents := py "none";
                               row_fact := py "None" |} ];
          detached := false |}
     = (Raise (KeyError (KInt 0)),
        {| committed := Some [ {| row_id := 0; row_depth := 0;
                                  row_topic := py "cat";
                                  row_parents := py "none";
                                  row_fact := py "None" |} ];
           session := Some [ {| row_id := 0; row_depth := 0;
                                row_topic := py "cat";
                                row_parents := py "none";
                                row_fact := py "None" |} ];
           detached := false |}).
Proof. split; reflexivity. Qed.

(** The loop on its own, entered with an index: after records without
    parents that have the three required keys, the first record whose
    ['parents'] is present and not [None] raises NameError, and the
    records before it are in the table. *)
Lemma create_loop_raises_NameError (pre post : list new_fact)
    (each : new_fact) (x : pyval) (index : Z) :
  Forall (fun e => f_parents e = None /\ f_depth e <> None
                   /\ f_topic e <> None /\ f_fact e <> None) pre ->
  f_parents each = Some x -> x <> PNone ->
  forall db rows,
  exists rows',
    create_loop (pre ++ each :: post) index (written db (Some rows))
    = (Raise (NameError (py "eeach")), written db (Some rows'))
    /\ List.length rows' = (List.length rows + List.length pre)%nat.
Proof.
  intros Hpre Heach Hx. induction Hpre as [|e pre (Hp & Hd & Ht & Hf) _ IH];
    intros db rows.
  - exists rows. split; [|simpl; lia].
    cbn [app create_loop]. unfold create_parents. rewrite Heach.
    destruct x; [contradiction | reflexivity | reflexivity].
  - cbn [app create_loop]. unfold create_parents. rewrite Hp.
    destruct (f_depth e) as [d|]; [|contradiction].
    destruct (f_topic e) as [t|]; [|contradiction].
    destruct (f_fact e) as [f|]; [|contradiction].
    cbn [bind getitem]. unfold db_bind. rewrite insert_row_written.
    destruct (IH db (rows ++ [ {| row_id := index; row_depth := d;
                                  row_topic := t; row_parents := none_text;
                                  row_fact := f |} ])) as (rows' & E & Hlen).
    exists rows'. split; [exact E|].
    rewrite Hlen, length_app. simpl. lia.
Qed.

(* ================================================================== *)
(** * The classifier as first token, last topic *)

Lemma matched_hits (M : dict topic_vals) (token : str) :
  matched M token = existsb (fun item => hits item token) M.
Proof.
  unfold matched, is_name, is_keyword, hits.
  induction M as [|item M IH]; simpl; [reflexivity|].
  rewrite <- IH.
  destruct (str_eqb (fst item) token), (keyword_of (snd item) token),
    (existsb (fun i => str_eqb (fst i) token) M),
    (existsb (fun i => keyword_of (snd i) token) M); reflexivity.
Qed.

Lemma last_hit_none (items : dict topic_vals) (token : str) :
  last_hit items token = None
  <-> existsb (fun item => hits item token) items = false.
Proof.
  induction items as [|item items IH]; simpl; [tauto|].
  destruct (last_hit items token) as [i|].
  - split; [discriminate|]. intros H. apply orb_false_iff in H as [_ H].
    apply IH in H. discriminate.
  - destruct IH as [IH _]. rewrite (IH eq_refl), orb_false_r.
    destruct (hits item token); split; congruence.
Qed.

Lemma last_hit_hits (items : dict topic_vals) (token : str)
    (item : str * topic_vals) :
  last_hit items token = Some item -> In item items /\ hits item token = true.
Proof.
  induction items as [|i items IH]; simpl; [discriminate|].
  destruct (last_hit items token) as [j|].
  - intros [= <-]. destruct (IH eq_refl). split; [now right | assumption].
  - destruct (hits i token) eqn:E; [|discriminate].
    intros [= <-]. split; [now left | assumption].
Qed.

Section FirstTokenLastTopic.

Variable list_of_set : list str -> list str.
Variable fact : str.

(** Once a keyword of the topic was met at weight [w], the rest of the
    keyword list changes nothing. *)
Lemma scan_matches_settled (token k : str) (vals : topic_vals) (w : Z) :
  t_weight vals = Some w ->
  forall ms st,
    scan_matches list_of_set fact token k vals ms w st = Ok (w, st).
Proof.
  intros Hw. induction ms as [|m ms IH]; intros st; simpl; [reflexivity|].
  destruct (str_eqb token m); [|apply IH].
  unfold getitem_weight. rewrite Hw. simpl. rewrite Z.ltb_irrefl. apply IH.
Qed.

Lemma scan_matches_hit (token k : str) (vals : topic_vals) (w : Z) :
  t_weight vals = Some w -> w < large_int -> str_eqb k token = false ->
  forall ms st,
    existsb (str_eqb token) ms = true ->
    exists ps,
      scan_matches list_of_set fact token k vals ms large_int st
      = Ok (w, {| found := true; parents := ps; topic_name := k;
                  fact_results :=
                    Some (entry_of list_of_set fact token (k, vals) w) |}).
Proof.
  intros Hw Hlt Ek. induction ms as [|m ms IH]; intros st Hex; simpl in *;
    [discriminate|].
  destruct (str_eqb token m) eqn:Em.
  - unfold getitem_weight. rewrite Hw. simpl.
    assert (E1 : (w <? large_int) = true) by now apply Z.ltb_lt.
    assert (E2 : (w =? large_int) = false) by (apply Z.eqb_neq; lia).
    rewrite E1, E2.
    exists (match t_parents vals with
            | Some vp => list_of_set vp
            | None => [k]
            end).
    rewrite scan_matches_settled by assumption.
    unfold entry_of. simpl. rewrite Ek.
    destruct (t_parents vals); reflexivity.
  - simpl in Hex. now apply IH.
Qed.

(** What one topic does to the scan: a hit sets the three locals the
    tree is built from, a miss leaves everything. *)
Lemma visit_topic_exact (token : str) (st : scan) (item : str * topic_vals)
    (w : Z) :
  t_weight (snd item) = Some w -> w < large_int ->
  exists st',
    visit_topic list_of_set fact token st item = Ok st'
    /\ if hits item token
       then found st' = true /\ topic_name st' = fst item
            /\ fact_results st'
               = Some (entry_of list_of_set fact token item w)
       else st' = st.
Proof.
  destruct item as [k vals]. simpl. intros Hw Hlt. unfold hits. simpl.
  destruct (str_eqb k token) eqn:Ek.
  - unfold getitem_weight. rewrite Hw. simpl. eexists. split; [reflexivity|].
    simpl. unfold entry_of. simpl. now rewrite Ek.
  - simpl. unfold keyword_of.
    destruct (t_matches vals) as [ms|]; [|now exists st].
    destruct (existsb (str_eqb token) ms) eqn:Ex.
    + destruct (scan_matches_hit token k vals w Hw Hlt Ek ms st Ex)
        as [ps H].
      rewrite H. simpl. eexists. split; [reflexivity|]. now simpl.
    + rewrite scan_matches_miss by assumption. simpl. now exists st.
Qed.

Lemma scan_topics_exact (token : str) (items : dict topic_vals) :
  weights_below items = true ->
  forall st,
  exists st',
    scan_topics list_of_set fact token items st = Ok st'
    /\ match last_hit items token with
       | Some item =>
           found st' = true /\ topic_name st' = fst item
           /\ exists w, t_weight (snd item) = Some w
                /\ fact_results st'
                   = Some (entry_of list_of_set fact token item w)
       | None => st' = st
       end.
Proof.
  unfold weights_below.
  induction items as [|item items IH]; intros Hall st; simpl in *.
  - now exists st.
  - apply andb_true_iff in Hall as [Hitem Hall].
    destruct (t_weight (snd item)) as [w|] eqn:Hw; [|discriminate].
    apply Z.ltb_lt in Hitem.
    destruct (visit_topic_exact token st item w Hw Hitem) as (st1 & E1 & H1).
    rewrite E1. simpl.
    destruct (IH Hall st1) as (st' & E' & H').
    exists st'. split; [exact E'|].
    destruct (last_hit items token) as [i|]; [exact H'|].
    subst st'. destruct (hits item token).
    + destruct H1 as (Hf & Ht & Hr). repeat split; try assumption.
      now exists w.
    + exact H1.
Qed.

Lemma scan_tokens_exact (M : dict topic_vals) :
  weights_below M = true ->
  forall tokens st, found st = false ->
  exists st',
    scan_tokens list_of_set M fact tokens st = Ok st'
    /\ match find (matched M) tokens with
       | Some token =>
           found st' = true
           /\ exists item w,
                last_hit M token = Some item
                /\ t_weight (snd item) = Some w
                /\ fact_results st'
                   = Some (entry_of list_of_set fact token item w)
       | None => st' = st
       end.
Proof.
  intros HM. induction tokens as [|token tokens IH]; intros st Hf; simpl.
  - now exists st.
  - rewrite Hf. simpl.
    destruct (scan_topics_exact token M HM st) as (st1 & E1 & H1).
    rewrite E1. simpl.
    destruct (matched M token) eqn:Em.
    + rewrite matched_hits in Em.
      destruct (last_hit M token) as [item|] eqn:El.
      2:{ apply last_hit_none in El. congruence. }
      destruct H1 as (Hf1 & _ & w & Hw & Hr).
      exists st1. split; [now apply scan_tokens_found|].
      split; [assumption|]. now exists item, w.
    + rewrite matched_hits in Em. apply last_hit_none in Em.
      rewrite Em in H1. subst st1. now apply IH.
Qed.

End FirstTokenLastTopic.

Section ClassifierShape.

Variable lower : str -> str.
Variable list_of_set : list str -> list str.

(** X1: when every topic of the model has a weight below [large_int],
    the classified fact is decided by the first token that matches
    anything and, for that token, by the last topic in dictionary order
    that the token names or that lists it; weights are not compared. *)
Theorem classified_first_token_last_topic (M : dict topic_vals)
    (fact : str) :
  weights_below M = true ->
  classified lower list_of_set M fact
  = first_token_last_topic lower list_of_set M fact.
Proof.
  intros HM. unfold classified, first_token_last_topic, classify_fact.
  destruct (scan_tokens_exact list_of_set fact M HM (tokenize lower fact)
              scan_init eq_refl) as (st & E & H).
  rewrite E.
  destruct (find (matched M) (tokenize lower fact)) as [token|].
  - destruct H as (Hf & item & w & Hl & Hw & Hr).
    now rewrite Hf, Hl, Hw, Hr.
  - now subst st.
Qed.

(** X2: a fact none of whose tokens matches a topic name or a keyword
    leaves no trace: the batch classifies as it does without the fact,
    for every model. *)
Theorem unmatched_fact_is_dropped (M : dict topic_vals) (fact : str)
    (before after : list str) :
  Forall (fun token => matched M token = false) (tokenize lower fact) ->
  determine_facts_hierarchy lower list_of_set (before ++ fact :: after) M
  = determine_facts_hierarchy lower list_of_set (before ++ after) M.
Proof.
  intros Hun. unfold determine_facts_hierarchy.
  generalize (@nil (str * node)).
  induction before as [|f before IH]; intros t; simpl.
  - unfold classify_fact at 1.
    rewrite <- (app_nil_r (tokenize lower fact)).
    rewrite scan_tokens_skip by assumption. reflexivity.
  - destruct (classify_fact lower list_of_set M f) as [st|e]; simpl;
      [|reflexivity].
    destruct (insert_fact t st) as [t'|e]; simpl; [apply IH | reflexivity].
Qed.

End ClassifierShape.

(* ================================================================== *)
(** * Tokens *)

Lemma replace_absent_any (x : char) (new s : str) :
  ~ In x s -> replace x new s = s.
Proof.
  unfold replace. induction s as [|c s IH]; simpl; [reflexivity|].
  intros Hnot. destruct (N.eqb_spec c x) as [->|Hne].
  - exfalso. apply Hnot. now left.
  - simpl. f_equal. apply IH. intros Hin. apply Hnot. now right.
Qed.

Lemma Forall_replace_delete (P : char -> Prop) (x : char) (s : str) :
  Forall P s -> Forall P (replace x [] s).
Proof.
  unfold replace. induction 1 as [|c s Hc Hs IH]; simpl; [constructor|].
  destruct (N.eqb c x); simpl; [exact IH | now constructor].
Qed.

Lemma split_pieces (P : char -> Prop) (sep : char) (s : str) :
  Forall P s ->
  Forall (fun piece => Forall P piece /\ ~ In sep piece) (split sep s).
Proof.
  induction 1 as [|c s Hc Hs IH]; simpl.
  - constructor; [|constructor]. split; [constructor | tauto].
  - destruct (N.eqb_spec c sep) as [->|Hne].
    + constructor; [|exact IH]. split; [constructor | tauto].
    + destruct (split sep s) as [|w ws].
      { constructor; [|constructor]. split; [now repeat constructor|].
        intros [E|[]]. congruence. }
      inversion IH as [|? ? [Hw Hsep] Hws]; subst.
      constructor; [|assumption]. split; [now constructor|].
      intros [E|Hin]; [congruence | contradiction].
Qed.

Section TokenShape.

Variable lower : str -> str.

(** Lowering brings in no ASCII punctuation. *)
Hypothesis lower_no_punctuation : forall s,
  Forall (fun c => mem_char c punctuation = false) s ->
  Forall (fun c => mem_char c punctuation = false) (lower s).

Lemma normalize_text_no_punctuation (text : str) :
  Forall (fun c => mem_char c punctuation = false)
    (normalize_text lower text).
Proof.
  unfold normalize_text. cbv zeta.
  repeat apply Forall_replace_delete.
  apply Forall_strip, lower_no_punctuation, translate_delete_spec.
Qed.

(** X3: a hyphen never separates tokens.  Hyphens are deleted with the
    rest of the punctuation before [replace('-', ' ')] runs, so the
    tokens are the normalised text cut at single spaces, and no token
    holds a punctuation character (an underscore, say) or a space. *)
Theorem tokens_are_cut_at_spaces_only (fact : str) :
  tokenize lower fact = split space (normalize_text lower fact)
  /\ Forall (fun token =>
       Forall (fun c => mem_char c punctuation = false) token
       /\ ~ In space token)
       (tokenize lower fact).
Proof.
  pose proof (normalize_text_no_punctuation fact) as Hn.
  assert (E : tokenize lower fact
              = split space (normalize_text lower fact)).
  { unfold tokenize. cbv zeta. rewrite replace_absent_any; [reflexivity|].
    intros Hin. rewrite Forall_forall in Hn. now specialize (Hn _ Hin). }
  split; [exact E|]. rewrite E. now apply split_pieces.
Qed.

Lemma token_no_underscore (fact token : str) :
  In token (tokenize lower fact) -> ~ In 95%N token.
Proof.
  intros Hin H95.
  assert (E : tokenize lower fact
              = split space (normalize_text lower fact)).
  { unfold tokenize. cbv zeta. rewrite replace_absent_any; [reflexivity|].
    intros Hh. pose proof (normalize_text_no_punctuation fact) as Hn.
    rewrite Forall_forall in Hn. now specialize (Hn _ Hh). }
  rewrite E in Hin.
  pose proof (split_pieces _ space _ (normalize_text_no_punctuation fact))
    as Hp.
  rewrite Forall_forall in Hp. destruct (Hp _ Hin) as [Htok _].
  rewrite Forall_forall in Htok. now specialize (Htok _ H95).
Qed.

End TokenShape.

(* ================================================================== *)
(** * Topics that are never assigned *)

Lemma last_hit_app (l1 l2 : dict topic_vals) (token : str) :
  last_hit (l1 ++ l2) token
  = match last_hit l2 token with
    | Some i => Some i
    | None => last_hit l1 token
    end.
Proof.
  induction l1 as [|a l1 IH]; simpl.
  - now destruct (last_hit l2 token).
  - rewrite IH. now destruct (last_hit l2 token).
Qed.

Lemma keywords_within_spec (a b : topic_vals) (token : str) :
  keywords_within a b = true -> keyword_of a token = true ->
  keyword_of b token = true.
Proof.
  unfold keywords_within, keyword_of.
  destruct (t_matches a) as [ma|]; [|intros _ H; discriminate H].
  destruct (t_matches b) as [mb|]; [|discriminate].
  intros Hsub Hin. rewrite forallb_forall in Hsub.
  apply existsb_exists in Hin as (m & Hm & E). apply str_eqb_eq in E. subst m.
  now apply Hsub.
Qed.

(** A topic whose keywords a later topic repeats wins a token only by
    being the token. *)
Lemma last_hit_shadowed (l1 l2 : dict topic_vals) (a b : str * topic_vals)
    (token : str) :
  ~ In (fst a) (map fst l1) -> ~ In (fst a) (map fst l2) -> In b l2 ->
  keywords_within (snd a) (snd b) = true ->
  last_hit (l1 ++ a :: l2) token = Some a ->
  fst a = token.
Proof.
  intros Hnot1 Hnot Hb Hsub H. rewrite last_hit_app in H. simpl in H.
  destruct (last_hit l2 token) as [i|] eqn:El.
  - injection H as ->. apply last_hit_hits in El as [Hin _].
    exfalso. apply Hnot. now apply in_map.
  - apply last_hit_none in El.
    assert (Hbm : hits b token = false).
    { destruct (hits b token) eqn:E; [|reflexivity].
      assert (X : existsb (fun item => hits item token) l2 = true)
        by (apply existsb_exists; now exists b).
      congruence. }
    destruct (hits a token) eqn:Ha.
    2:{ apply last_hit_hits in H as [Hin _]. exfalso. apply Hnot1.
        now apply in_map. }
    unfold hits in Ha, Hbm. apply orb_false_iff in Hbm as [_ Hkb].
    destruct (str_eqb (fst a) token) eqn:En; [now apply str_eqb_eq|].
    simpl in Ha. apply (keywords_within_spec _ _ _ Hsub) in Ha. congruence.
Qed.

Lemma shipped_weights_below : weights_below weighted_topic_vals = true.
Proof. vm_compute. reflexivity. Qed.

Lemma classified_topic_hit (lower : str -> str)
    (list_of_set : list str -> list str) (M : dict topic_vals)
    (fact : str) (r : entry) :
  weights_below M = true ->
  classified lower list_of_set M fact = Some r ->
  exists token item,
    In token (tokenize lower fact)
    /\ last_hit M token = Some item /\ n_topic r = fst item.
Proof.
  intros HM. unfold classified, classify_fact.
  destruct (scan_tokens_exact list_of_set fact M HM (tokenize lower fact)
              scan_init eq_refl) as (st & E & H).
  rewrite E.
  destruct (find (matched M) (tokenize lower fact)) as [token|] eqn:Ef.
  - destruct H as (Hf & item & w & Hl & Hw & Hr). rewrite Hf, Hr.
    intros [= <-]. exists token, item.
    apply find_some in Ef as [Hin _]. now repeat split.
  - subst st. discriminate.
Qed.

(** In the shipped model a shadowed topic is the last hit of a token only
    when the token is its name. *)
Lemma shipped_shadowed (token : str) (item : str * topic_vals) :
  last_hit weighted_topic_vals token = Some item ->
  In (fst item) shadowed_topics -> fst item = token.
Proof.
  destruct item as [k vals]. cbn [fst]. intros Hl Hin.
  destruct (last_hit_hits _ _ _ Hl) as [HinM _].
  destruct (well_formed_spec _ shipped_well_formed) as (Hnd & _ & _).
  pose proof (In_dict_get weighted_topic_vals k vals Hnd HinM) as Hget.
  unfold shadowed_topics, words in Hin. simpl in Hin.
  destruct Hin as [E|[E|[E|[E|[E|[E|[]]]]]]];
    subst k; vm_compute in Hget; injection Hget as Hv; subst vals.
  - apply (last_hit_shadowed (firstn 8 weighted_topic_vals)
             (skipn 9 weighted_topic_vals)
             (nth 8 weighted_topic_vals (py "misc", topic 0 [] []))
             (py "positive_activities",
              topic 3 ["cat_root"; "cat"; "activities"]%string
                positive_matches));
      [ vm_compute; intuition discriminate
      | vm_compute; intuition discriminate
      | vm_compute; tauto
      | vm_compute; reflexivity
      | exact Hl ].
  - apply (last_hit_shadowed (firstn 9 weighted_topic_vals)
             (skipn 10 weighted_topic_vals)
             (nth 9 weighted_topic_vals (py "misc", topic 0 [] []))
             (py "negative_activities",
              topic 3 ["cat_root"; "cat"; "activities"]%string
                negative_matches));
      [ vm_compute; intuition discriminate
      | vm_compute; intuition discriminate
      | vm_compute; tauto
      | vm_compute; reflexivity
      | exact Hl ].
  - apply (last_hit_shadowed (firstn 10 weighted_topic_vals)
             (skipn 11 weighted_topic_vals)
             (nth 10 weighted_topic_vals (py "misc", topic 0 [] []))
             (py "positive_activities",
              topic 3 ["cat_root"; "cat"; "activities"]%string
                positive_matches));
      [ vm_compute; intuition discriminate
      | vm_compute; intuition discriminate
      | vm_compute; tauto
      | vm_compute; reflexivity
      | exact Hl ].
  - apply (last_hit_shadowed (firstn 11 weighted_topic_vals)
             (skipn 12 weighted_topic_vals)
             (nth 11 weighted_topic_vals (py "misc", topic 0 [] []))
             (py "negative_activities",
              topic 3 ["cat_root"; "cat"; "activities"]%string
                negative_matches));
      [ vm_compute; intuition discriminate
      | vm_compute; intuition discriminate
      | vm_compute; tauto
      | vm_compute; reflexivity
      | exact Hl ].
  - apply (last_hit_shadowed (firstn 12 weighted_topic_vals)
             (skipn 13 weighted_topic_vals)
             (nth 12 weighted_topic_vals (py "misc", topic 0 [] []))
             (py "positive_activities",
              topic 3 ["cat_root"; "cat"; "activities"]%string
                positive_matches));
      [ vm_compute; intuition discriminate
      | vm_compute; intuition discriminate
      | vm_compute; tauto
      | vm_compute; reflexivity
      | exact Hl ].
  - apply (last_hit_shadowed (firstn 13 weighted_topic_vals)
             (skipn 14 weighted_topic_vals)
             (nth 13 weighted_topic_vals (py "misc", topic 0 [] []))
             (py "negative_activities",
              topic 3 ["cat_root"; "cat"; "activities"]%string
                negative_matches));
      [ vm_compute; intuition discriminate
      | vm_compute; intuition discriminate
      | vm_compute; tauto
      | vm_compute; reflexivity
      | exact Hl ].
Qed.

Lemma shadowed_has_underscore (k : str) :
  In k shadowed_topics -> In 95%N k.
Proof.
  unfold shadowed_topics, words. simpl.
  intros [E|[E|[E|[E|[E|[E|[]]]]]]]; subst k; vm_compute; tauto.
Qed.

Section NeverAssigned.

Variable lower : str -> str.
Variable list_of_set : list str -> list str.

Hypothesis lower_no_punctuation : forall s,
  Forall (fun c => mem_char c punctuation = false) s ->
  Forall (fun c => mem_char c punctuation = false) (lower s).

(** X4: with the shipped model no fact of any batch is ever classified
    under [positive_health], [negative_health], [positive_intelligence],
    [negative_intelligence], [positive_personality] or
    [negative_personality]: their keywords are those of
    [positive_activities] and [negative_activities], which come later in
    the dictionary and overwrite them, and their names hold an underscore,
    which no token does. *)
Theorem shadowed_topics_never_assigned (facts : list str) :
  exists t,
    determine_facts_hierarchy lower list_of_set facts weighted_topic_vals
    = Ok t
    /\ forall r, in_tree r t -> ~ In (n_topic r) shadowed_topics.
Proof.
  destruct (determine_facts_hierarchy_spec lower list_of_set
              weighted_topic_vals shipped_well_formed facts)
    as (t & E & _ & P).
  exists t. split; [exact E|]. intros r Hr Hsh.
  apply P in Hr as (f & _ & Hc).
  destruct (classified_topic_hit lower list_of_set weighted_topic_vals f r
              shipped_weights_below Hc) as (token & item & Hin & Hl & Ht).
  rewrite Ht in Hsh.
  pose proof (shipped_shadowed token item Hl Hsh) as Etok.
  apply shadowed_has_underscore in Hsh. rewrite Etok in Hsh.
  exact (token_no_underscore lower lower_no_punctuation f token Hin Hsh).
Qed.

End NeverAssigned.

(* ================================================================== *)
(** * The lists of a tree *)

Section TreeLists.

Variable M : dict topic_vals.
Variable fact : str.

Hypothesis M_distinct : NoDup (map fst M).
Hypothesis M_no_root_names :
  forall k vals p, In (k, vals) M -> k <> p ++ root_suffix.

(** What [insert_fact] does to the list under each key and to the root
    nodes. *)
Lemma insert_fact_lists (t : tree) (st : scan) :
  tree_inv M t -> scan_ok M fact st ->
  exists t',
    insert_fact t st = Ok t'
    /\ (forall T, list_at t' T
          = list_at t T
            ++ (if found st
                then match fact_results st with
                     | Some r => if str_eqb (n_topic r) T then [r] else []
                     | None => []
                     end
                else []))
    /\ (forall k r, dict_get t' k = Some (NDict r) ->
          dict_get t k = Some (NDict r)
          \/ exists T, k = T ++ root_suffix
               /\ r = {| n_topic := T; n_depth := 0;
                         n_parents := PNone; n_fact := None |}).
Proof.
  intros Ht Hst. unfold insert_fact. destruct (found st) eqn:Hf.
  2:{ exists t. split; [reflexivity|]. split.
      - intros T. now rewrite app_nil_r.
      - intros k r H. now left. }
  destruct (Hst Hf) as (vals & r & Hin & Hr & Htop & Hw & Hfact).
  apply In_dict_get in Hin; [|assumption].
  unfold get_results. rewrite Hr.
  assert (HnotR : forall p, topic_name st <> p ++ root_suffix).
  { intros p. apply (M_no_root_names _ vals). now apply dict_get_In. }
  destruct Ht as (I1 & I2 & I3).
  destruct (dict_get t (topic_name st)) as [[l|r1]|] eqn:Hget; simpl.
  - eexists. split; [reflexivity|]. split.
    + intros T. unfold list_at. rewrite dict_get_set, Htop.
      destruct (str_eqb_spec (topic_name st) T) as [<-|Hne].
      * now rewrite Hget.
      * now rewrite app_nil_r.
    + intros k r0 H. rewrite dict_get_set in H.
      destruct (str_eqb (topic_name st) k); [discriminate | now left].
  - exfalso. destruct (I2 _ _ Hget) as (T & _ & _ & HT & _).
    now apply (HnotR T).
  - eexists. split; [reflexivity|]. split.
    + intros T. unfold list_at. rewrite dict_get_set, Htop.
      destruct (str_eqb_spec (topic_name st) T) as [<-|Hne].
      * now rewrite Hget.
      * rewrite app_nil_r.
        destruct (n_depth r =? 1); [|reflexivity].
        rewrite dict_get_set.
        destruct (str_eqb_spec (topic_name st ++ root_suffix) T)
          as [<-|Hne2]; [|reflexivity].
        destruct (dict_get t (topic_name st ++ root_suffix))
          as [[l0|r0]|] eqn:Hg; try reflexivity.
        destruct (I1 _ _ Hg) as (_ & v & Hv & _).
        exfalso. apply dict_get_In in Hv.
        now apply (M_no_root_names _ v (topic_name st)) in Hv.
    + intros k r0 H. rewrite dict_get_set in H.
      destruct (str_eqb (topic_name st) k); [discriminate|].
      destruct (n_depth r =? 1); [|now left].
      rewrite dict_get_set in H.
      destruct (str_eqb_spec (topic_name st ++ root_suffix) k)
        as [<-|Hne]; [|now left].
      right. exists (topic_name st). split; [reflexivity|].
      injection H as <-. now rewrite Htop.
Qed.

End TreeLists.

Section TreeContents.

Variable lower : str -> str.
Variable list_of_set : list str -> list str.
Variable M : dict topic_vals.

Hypothesis M_well_formed : well_formed M = true.

Lemma classify_loop_lists (facts : list str) :
  forall t, tree_inv M t ->
  exists t',
    classify_loop lower list_of_set M facts t = Ok t'
    /\ tree_inv M t'
    /\ (forall T, list_at t' T
          = list_at t T ++ filed_under lower list_of_set M T facts)
    /\ (forall k r, dict_get t' k = Some (NDict r) ->
          dict_get t k = Some (NDict r)
          \/ exists T, k = T ++ root_suffix
               /\ r = {| n_topic := T; n_depth := 0;
                         n_parents := PNone; n_fact := None |}).
Proof.
  destruct (well_formed_spec M M_well_formed) as (Hnd & _ & Hroot).
  induction facts as [|fact facts IH]; intros t Ht; simpl.
  - exists t. split; [reflexivity|]. split; [assumption|]. split.
    + intros T. now rewrite app_nil_r.
    + intros k r H. now left.
  - destruct (classify_fact_ok lower list_of_set M M_well_formed fact)
      as (st & E & Hst).
    rewrite E. simpl.
    destruct (insert_fact_spec M fact Hnd Hroot t st Ht Hst)
      as (t1 & E1 & Ht1 & _).
    destruct (insert_fact_lists M fact Hnd Hroot t st Ht Hst)
      as (t1' & E1' & Hl1 & Hr1).
    rewrite E1 in E1'. injection E1' as <-.
    rewrite E1. simpl.
    destruct (IH t1 Ht1) as (t' & E' & Ht' & Hl' & Hr').
    exists t'. split; [assumption|]. split; [assumption|]. split.
    + intros T. rewrite Hl', Hl1, <- app_assoc. f_equal. f_equal.
      unfold classified. rewrite E.
      destruct (found st); [|reflexivity].
      destruct (fact_results st) as [r|]; [|reflexivity].
      now destruct (str_eqb (n_topic r) T).
    + intros k r H. apply Hr' in H as [H|H]; [|now right].
      now apply Hr1 in H.
Qed.

(** X5: on a well-formed model the list a tree keeps under a topic holds
    exactly the facts of the batch classified under that topic, in batch
    order and with repeated facts repeated; a topic without such a fact
    has no list. *)
Theorem topic_list_in_batch_order (facts : list str) (T : str) :
  exists t,
    determine_facts_hierarchy lower list_of_set facts M = Ok t
    /\ forall l, dict_get t T = Some (NList l)
         <-> l = filed_under lower list_of_set M T facts /\ l <> [].
Proof.
  destruct (classify_loop_lists facts [] (tree_inv_empty M))
    as (t & E & (I1 & _) & Hl & _).
  exists t. split; [exact E|]. intros l.
  specialize (Hl T). unfold list_at at 2 in Hl. simpl in Hl.
  split.
  - intros H. destruct (I1 _ _ H) as [Hne _].
    unfold list_at in Hl. rewrite H in Hl. now split.
  - intros [-> Hne]. unfold list_at in Hl.
    destruct (dict_get t T) as [[l0|r0]|]; [now rewrite Hl | | ];
      now rewrite <- Hl in Hne.
Qed.

(** X6: every root node of the tree is the bare label of its topic: it
    sits under [T + "_root"] and holds topic [T], depth 0, no parents and
    no fact. *)
Theorem root_nodes_are_labels (facts : list str) :
  exists t,
    determine_facts_hierarchy lower list_of_set facts M = Ok t
    /\ forall k r, dict_get t k = Some (NDict r) ->
         exists T, k = T ++ root_suffix
           /\ r = {| n_topic := T; n_depth := 0;
                     n_parents := PNone; n_fact := None |}.
Proof.
  destruct (classify_loop_lists facts [] (tree_inv_empty M))
    as (t & E & _ & _ & Hr).
  exists t. split; [exact E|]. intros k r H.
  apply Hr in H as [H|H]; [discriminate | exact H].
Qed.

(** X7: the tree invents nothing: every classified fact it holds carries
    the unchanged text of a fact of the batch, a topic of the model and
    that topic's weight as depth, and sits in the list of its own
    topic. *)
Theorem classified_facts_come_from_the_batch (facts : list str) :
  exists t,
    determine_facts_hierarchy lower list_of_set facts M = Ok t
    /\ forall k l r, dict_get t k = Some (NList l) -> In r l ->
         n_topic r = k
         /\ (exists f, In f facts /\ n_fact r = Some f)
         /\ exists vals, dict_get M k = Some vals
              /\ t_weight vals = Some (n_depth r).
Proof.
  destruct (determine_facts_hierarchy_spec lower list_of_set M
              M_well_formed facts) as (t & E & (I1 & _) & P).
  exists t. split; [exact E|]. intros k l r Hl Hin.
  destruct (I1 _ _ Hl) as (_ & vals & HM & Hall).
  destruct (Hall r Hin) as [Ht Hw].
  split; [exact Ht|]. split.
  - assert (Hr : in_tree r t) by now exists k, l.
    apply P in Hr as (f & Hf & Hc). exists f. split; [exact Hf|].
    now apply (classified_text lower list_of_set M M_well_formed).
  - now exists vals.
Qed.

End TreeContents.

(* ================================================================== *)
(** * The clean write when it succeeds *)

(** X8: when every list of the tree holds at least two facts, the clean
    write commits a table that holds one row per root node and per fact,
    in the order of the tree, with the ids 0, 1, 2, ... and the topic,
    depth, joined parents and fact text of each node; what the table held
    before is gone. *)
Theorem clean_write_commits_the_tree (data : tree) (db : database) :
  session db = committed db ->
  writable data = true ->
  exists rows,
    save_to_db_clean data db
    = (Ok tt,
       {| committed := Some rows; session := Some rows; detached := false |})
    /\ map row_id rows = count_from 0 (List.length (tree_entries data))
    /\ map row_topic rows = map n_topic (tree_entries data)
    /\ map row_depth rows = map n_depth (tree_entries data)
    /\ map row_parents rows = parents_column data
    /\ map row_fact rows
       = map (fun e => str_of (n_fact e)) (tree_entries data).
Proof.
  intros Hdb Hw. rewrite clean_write_unfold by assumption.
  destruct (save_nodes_rows data 0
              {| committed := committed db; session := session db;
                 detached := commits_at_once db |} [] Hw)
    as (rows & E & H).
  exists rows. rewrite E. simpl. split; [reflexivity | exact H].
Qed.

(** X9: the clean write returns normally exactly when no list of the
    tree has fewer than two facts.  Otherwise it ends in TypeError at the
    first such list, with the rows of the entries before it written.
    When the table was there at the start, those rows wait in the open
    transaction and the committed table is left as it was; when it was
    missing (or the connection detached), the new table and those rows
    are committed. *)
Theorem clean_write_succeeds_iff_writable (data : tree) (db : database) :
  session db = committed db ->
  (fst (save_to_db_clean data db) = Ok tt <-> writable data = true)
  /\ (writable data = false ->
      exists pre k n post rows,
        data = pre ++ (k, n) :: post
        /\ writable pre = true
        /\ short_list n = true
        /\ save_to_db_clean data db
           = (Raise TypeError,
              {| committed := if commits_at_once db then Some rows
                              else committed db;
                 session := Some rows;
                 detached := commits_at_once db |})
        /\ map row_id rows = count_from 0 (List.length (tree_entries pre))
        /\ map row_topic rows = map n_topic (tree_entries pre)
        /\ map row_depth rows = map n_depth (tree_entries pre)
        /\ map row_parents rows = parents_column pre
        /\ map row_fact rows
           = map (fun e => str_of (n_fact e)) (tree_entries pre)).
Proof.
  intros Hdb. rewrite clean_write_unfold by assumption.
  destruct (writable data) eqn:Hw.
  - destruct (save_nodes_rows data 0
                {| committed := committed db; session := session db;
                   detached := commits_at_once db |} [] Hw)
      as (rows & E & _).
    rewrite E. simpl. split; [tauto | discriminate].
  - destruct (save_nodes_stops data 0
                {| committed := committed db; session := session db;
                   detached := commits_at_once db |} [] Hw)
      as (pre & k & n & post & rows & Hdata & Hpre & Hn & E & _ & H).
    rewrite E. simpl. split; [split; discriminate|].
    intros _. exists pre, k, n, post, rows. now repeat split.
Qed.

(* ================================================================== *)
(** * Reading back *)

Lemma fetch_keys_spec (c : option (list row)) (rows : list row)
    (d : bool) :
  forall keys res0,
  exists res,
    fetch_keys keys res0
      {| committed := c; session := Some rows; detached := d |}
    = (Ok res, {| committed := c; session := Some rows; detached := d |})
    /\ forall k,
         dict_get res k
         = if existsb (str_eqb k) keys
           then Some (map real_dict_row
                        (filter (fun r => str_eqb (row_topic r) k) rows))
           else dict_get res0 k.
Proof.
  induction keys as [|each keys IH]; intros res0.
  - exists res0. split; [reflexivity|]. now intros k.
  - cbn [fetch_keys]. unfold db_bind, select_topic. cbn [session].
    destruct (IH (dict_set res0 each
                    (map real_dict_row
                       (filter (fun r => str_eqb (row_topic r) each) rows))))
      as (res & E & H).
    exists res. split; [exact E|]. intros k. rewrite H. simpl.
    rewrite dict_get_set, (str_eqb_sym k each).
    destruct (existsb (str_eqb k) keys); [now rewrite orb_true_r|].
    rewrite orb_false_r.
    destruct (str_eqb_spec each k) as [->|Hne]; reflexivity.
Qed.

(** X10: [fetch] leaves the store as it was and answers one group per
    requested name: the rows whose topic is exactly that name, and no
    group for a name that was not requested; without names it answers
    every row under the single key ['all']. *)
Theorem fetch_groups_rows_by_topic (db : database) (rows : list row)
    (keys : list str) :
  session db = Some rows ->
  (exists res,
     fetch (Some keys) db = (Ok res, db)
     /\ (forall k, In k keys ->
           dict_get res k
           = Some (map real_dict_row
                     (filter (fun r => str_eqb (row_topic r) k) rows)))
     /\ (forall k, ~ In k keys -> dict_get res k = None))
  /\ fetch None db = (Ok [(py "all", map real_dict_row rows)], db).
Proof.
  intros Hs. destruct db as [c s d]. simpl in Hs. subst s. split.
  - destruct (fetch_keys_spec c rows d keys []) as (res & E & H).
    exists res. split; [exact E|]. split; intros k Hk; rewrite H.
    + assert (X : existsb (str_eqb k) keys = true)
        by (apply existsb_exists; exists k; split;
            [assumption | apply str_eqb_refl]).
      now rewrite X.
    + destruct (existsb (str_eqb k) keys) eqn:X; [|reflexivity].
      apply existsb_exists in X as (k' & Hin & E').
      apply str_eqb_eq in E'. now subst k'.
  - reflexivity.
Qed.

Lemma tree_entries_set (d : tree) (k : str) (n : node) (e : entry) :
  In e (tree_entries (dict_set d k n)) ->
  In e (tree_entries d)
  \/ In e match n with NList l => l | NDict r => [r] end.
Proof.
  unfold tree_entries.
  induction d as [|[k0 n0] d IH]; simpl.
  - rewrite app_nil_r. now right.
  - destruct (str_eqb k0 k); simpl; rewrite !in_app_iff.
    + intros [H|H]; [now right | left; now right].
    + intros [H|H]; [left; now left|].
      apply IH in H as [H|H]; [left; now right | now right].
Qed.

Lemma tree_entries_get (d : tree) (k : str) (l : list entry) (e : entry) :
  dict_get d k = Some (NList l) -> In e l -> In e (tree_entries d).
Proof.
  intros H Hin. apply dict_get_In in H. unfold tree_entries.
  apply in_flat_map. exists (k, NList l). now split.
Qed.

Section StoredTopics.

Variable lower : str -> str.
Variable list_of_set : list str -> list str.
Variable M : dict topic_vals.

Hypothesis M_well_formed : well_formed M = true.

Lemma In_is_name (k : str) (vals : topic_vals) :
  In (k, vals) M -> is_name M k = true.
Proof.
  intros H. unfold is_name. apply existsb_exists.
  exists (k, vals). split; [assumption | apply str_eqb_refl].
Qed.

Lemma insert_fact_topics (fact : str) (t t' : tree) (st : scan) :
  scan_ok M fact st ->
  Forall (fun e => is_name M (n_topic e) = true) (tree_entries t) ->
  insert_fact t st = Ok t' ->
  Forall (fun e => is_name M (n_topic e) = true) (tree_entries t').
Proof.
  intros Hst Ht. unfold insert_fact.
  destruct (found st) eqn:Hf; [|now intros [= <-]].
  destruct (Hst Hf) as (vals & r & Hin & Hr & Htop & _).
  assert (Hname : is_name M (n_topic r) = true)
    by (rewrite Htop; now apply (In_is_name _ vals)).
  unfold get_results. rewrite Hr. rewrite Forall_forall in Ht.
  destruct (dict_get t (topic_name st)) as [[l|r1]|] eqn:Hget; simpl;
    [|discriminate|]; intros [= <-]; apply Forall_forall; intros e He.
  - apply tree_entries_set in He as [He|He]; [now apply Ht|].
    apply in_app_or in He as [He|[<-|[]]]; [|assumption].
    apply Ht. now apply (tree_entries_get t (topic_name st) l).
  - apply tree_entries_set in He as [He|[<-|[]]]; [|assumption].
    destruct (n_depth r =? 1); [|now apply Ht].
    apply tree_entries_set in He as [He|[<-|[]]]; [now apply Ht|].
    exact Hname.
Qed.

Lemma classify_loop_topics (facts : list str) :
  forall t t',
    Forall (fun e => is_name M (n_topic e) = true) (tree_entries t) ->
    classify_loop lower list_of_set M facts t = Ok t' ->
    Forall (fun e => is_name M (n_topic e) = true) (tree_entries t').
Proof.
  induction facts as [|fact facts IH]; intros t t' Ht; simpl.
  - now intros [= <-].
  - destruct (classify_fact_ok lower list_of_set M M_well_formed fact)
      as (st & E & Hst).
    rewrite E. simpl.
    destruct (insert_fact t st) as [t1|e] eqn:E1; simpl; [|discriminate].
    apply IH. now apply (insert_fact_topics fact t t1 st).
Qed.

Lemma name_not_root (k p : str) :
  is_name M k = true -> k <> p ++ root_suffix.
Proof.
  destruct (well_formed_spec M M_well_formed) as (_ & _ & Hroot).
  unfold is_name. intros H. apply existsb_exists in H as ([k' v] & Hin & E).
  simpl in E. apply str_eqb_eq in E. subst k'. now apply (Hroot k v).
Qed.

(** X11: after a clean write of the classifier's tree that succeeded,
    nothing can be fetched under a tree key of the form [T + "_root"]:
    the row of a root node is stored under the plain topic name, and
    every stored topic is a topic name of the model. *)
Theorem root_keys_fetch_nothing (facts : list str) :
  exists t,
    determine_facts_hierarchy lower list_of_set facts M = Ok t
    /\ forall db db' T,
         session db = committed db ->
         save_to_db_clean t db = (Ok tt, db') ->
         fetch (Some [T ++ root_suffix]) db'
         = (Ok [(T ++ root_suffix, [])], db')
         /\ exists rows,
              committed db' = Some rows
              /\ Forall (fun r => is_name M (row_topic r) = true) rows.
Proof.
  destruct (determine_facts_hierarchy_spec lower list_of_set M
              M_well_formed facts) as (t & E & _).
  exists t. split; [exact E|]. intros db db' T Hdb Hsave.
  pose proof (classify_loop_topics facts [] t (Forall_nil _) E) as Htop.
  rewrite clean_write_unfold in Hsave by assumption.
  destruct (writable t) eqn:Hw.
  2:{ destruct (save_nodes_stops t 0
                  {| committed := committed db; session := session db;
                     detached := commits_at_once db |} [] Hw)
        as (pre & k & n & post & rows & _ & _ & _ & Er & _).
      rewrite Er in Hsave. discriminate. }
  destruct (save_nodes_rows t 0
              {| committed := committed db; session := session db;
                 detached := commits_at_once db |} [] Hw)
    as (rows & Er & _ & Hrt & _).
  rewrite Er in Hsave. simpl in Hsave. injection Hsave as <-.
  assert (Hrows : Forall (fun r => is_name M (row_topic r) = true) rows).
  { apply Forall_forall. intros r Hr.
    assert (Hin : In (row_topic r) (map n_topic (tree_entries t)))
      by (rewrite <- Hrt; now apply in_map).
    apply in_map_iff in Hin as (e & <- & He).
    rewrite Forall_forall in Htop. now apply Htop. }
  split; [|now exists rows].
  unfold fetch, fetch_keys, db_bind, select_topic, db_ret. cbn [session].
  do 4 f_equal.
  assert (Hnone : filter (fun r => str_eqb (row_topic r) (T ++ root_suffix))
                    rows = []).
  { clear Er Hrt. induction Hrows as [|r rows Hr _ IH]; [reflexivity|].
    simpl. destruct (str_eqb_spec (row_topic r) (T ++ root_suffix))
      as [Eq|_]; [|exact IH].
    now apply (name_not_root _ T) in Hr. }
  now rewrite Hnone.
Qed.

End StoredTopics.

(* ================================================================== *)
(** * The request layer *)

Lemma split_no_sep (sep : char) (p : str) :
  ~ In sep p -> split sep p = [p].
Proof.
  induction p as [|c p IH]; simpl; [reflexivity|]. intros Hnot.
  destruct (N.eqb_spec c sep) as [->|Hne]; [exfalso; apply Hnot; now left|].
  rewrite IH; [reflexivity|]. intros Hin. apply Hnot. now right.
Qed.

Lemma split_app_sep (sep : char) (p s : str) :
  ~ In sep p -> split sep (p ++ sep :: s) = p :: split sep s.
Proof.
  induction p as [|c p IH]; simpl; intros Hnot.
  - now rewrite N.eqb_refl.
  - destruct (N.eqb_spec c sep) as [->|Hne];
      [exfalso; apply Hnot; now left|].
    rewrite IH; [reflexivity|]. intros Hin. apply Hnot. now right.
Qed.

(** Cutting a joined list of names gives the names back. *)
Lemma split_join (sep : char) (parts : list str) :
  parts <> [] -> Forall (fun p => ~ In sep p) parts ->
  split sep (join [sep] parts) = parts.
Proof.
  intros Hne Hall. induction Hall as [|p parts Hp Hparts IH];
    [contradiction|].
  destruct parts as [|q parts].
  - simpl. now apply split_no_sep.
  - change (join [sep] (p :: q :: parts))
      with (p ++ sep :: join [sep] (q :: parts)).
    rewrite split_app_sep by assumption. f_equal. apply IH. discriminate.
Qed.

(** X12: a request for names joined by commas fetches exactly those
    names, provided there is a name, no name holds a comma and the
    request is not the single name [all]; the request [all] fetches
    every row instead, so a topic called [all] cannot be asked for by
    itself. *)
Theorem get_cat_facts_by_names (names : list str) :
  names <> [] -> Forall (fun p => ~ In comma p) names ->
  names <> [py "all"] ->
  get_cat_facts (join [comma] names) = fetch (Some names)
  /\ get_cat_facts (py "all") = fetch None.
Proof.
  intros Hne Hall Hnot. split; [|reflexivity].
  unfold get_cat_facts.
  destruct (str_eqb_spec (join [comma] names) (py "all")) as [E|_].
  - exfalso. apply Hnot.
    rewrite <- (split_join comma names Hne Hall), E. reflexivity.
  - cbv zeta. now rewrite split_join.
Qed.

(** X13: the write request stores nothing, whatever its body: without
    the key ['new_cat_facts'] it is a KeyError, with it [create] raises
    in its opening statements; the store is left as it was. *)
Theorem write_new_cat_fact_stores_nothing (body : dict (list new_fact))
    (db : database) :
  exists e, write_new_cat_fact body db = (Raise e, db).
Proof.
  unfold write_new_cat_fact.
  destruct (dict_get body (py "new_cat_facts")) as [vals|].
  - unfold create, db_bind, fetch_last.
    destruct (session db) as [[|r rows]|].
    + now exists TypeError.
    + destruct (last_by_id_cons r rows) as [r' ->].
      now exists (KeyError (KInt 0)).
    + now exists ProgrammingError.
  - eexists. reflexivity.
Qed.

(* ================================================================== *)
(** * Fetching the facts *)

Lemma append_facts_texts {A : Type} (g : A -> str) (l : list A)
    (results : list json) :
  snd (append_facts (map (fun x => JString (g x)) l) results) = results.
Proof. now destruct l. Qed.

Lemma append_facts_harvest (items : list json) :
  forall results,
    snd (append_facts items results) = results ++ harvest_items items.
Proof.
  induction items as [|item items IH]; intros results.
  - simpl. now rewrite app_nil_r.
  - destruct item as [| b | q | s | l | members]; simpl;
      try now rewrite app_nil_r.
    destruct (dict_get members (py "fact")) as [fact|]; simpl.
    + now rewrite IH, <- app_assoc.
    + now rewrite app_nil_r.
Qed.

Lemma fetch_task_harvest (r : response) (results : list json) :
  snd (fetch_task r results) = results ++ harvest r.
Proof.
  destruct r as [|data]; [simpl; now rewrite app_nil_r|].
  destruct data as [| b | q | s | l | members]; simpl;
    try now rewrite app_nil_r.
  destruct (dict_get members (py "data")) as [value|]; simpl;
    [|now rewrite app_nil_r].
  destruct value as [| b | q | s | l | keys]; simpl;
    try now rewrite app_nil_r.
  - rewrite (append_facts_texts (fun c => [c])). now rewrite app_nil_r.
  - apply append_facts_harvest.
  - rewrite (append_facts_texts fst). now rewrite app_nil_r.
Qed.

(** X14: the worker empties the queue and never fails: it uses one reply
    per task, keeps the facts it was given, and adds, task by task, the
    facts of each reply up to the first item without a ['fact'] key;
    a task without a usable reply adds nothing. *)
Theorem fetch_from_queue_collects (queue : list str) :
  forall results net,
    fetch_from_queue queue results net
    = ([],
       results ++ flat_map harvest (firstn (List.length queue) net),
       skipn (List.length queue) net).
Proof.
  induction queue as [|task queue IH]; intros results net.
  - simpl. now rewrite app_nil_r.
  - cbn [fetch_from_queue]. rewrite IH, fetch_task_harvest.
    destruct net as [|r net]; simpl.
    + rewrite firstn_nil, skipn_nil. simpl. now rewrite !app_nil_r.
    + now rewrite <- app_assoc.
Qed.

Lemma all_texts_leading (values : list json) :
  all_texts values = true -> map JString (leading_texts values) = values.
Proof.
  induction values as [|v values IH]; [reflexivity|].
  destruct v; simpl; try discriminate. intros H. now rewrite IH.
Qed.

Section PipelineFacts.

Variable lower : str -> str.
Variable list_of_set : list str -> list str.

Lemma make_cat_facts_tree_unfold (net : list response) :
  make_cat_facts_tree lower list_of_set net
  = classify_results lower list_of_set (harvest (hd Unreachable net)).
Proof.
  unfold make_cat_facts_tree. cbv zeta.
  change (make_queue API_ENDPOINT MAX_SIZE) with [API_ENDPOINT].
  cbn [fetch_from_queue fst snd]. rewrite fetch_task_harvest.
  now destruct net.
Qed.

(** X15: building the tree raises exactly when the one reply contributes
    a value that is not a string, and the exception is then an
    AttributeError; otherwise the tree is the classification of the
    contributed facts.  Classifying the strings that come before such a
    value does not raise. *)
Theorem make_cat_facts_tree_raises_only_AttributeError
    (net : list response) :
  exists t,
    determine_facts_hierarchy lower list_of_set
      (leading_texts (harvest (hd Unreachable net))) weighted_topic_vals
    = Ok t
    /\ make_cat_facts_tree lower list_of_set net
       = if all_texts (harvest (hd Unreachable net)) then Ok t
         else Raise AttributeError.
Proof.
  rewrite make_cat_facts_tree_unfold. unfold classify_results.
  destruct (determine_facts_hierarchy_spec lower list_of_set
              weighted_topic_vals shipped_well_formed
              (leading_texts (harvest (hd Unreachable net))))
    as (t & E & _).
  exists t. split; [exact E|]. now rewrite E.
Qed.

(** X16: when the fetch brings no fact, the script still runs the clean
    write with the empty tree: the table is dropped, created again and
    committed empty, so the facts stored before are lost. *)
Theorem failed_fetch_empties_the_table (net : list response)
    (db : database) :
  session db = committed db ->
  harvest (hd Unreachable net) = [] ->
  main lower list_of_set net db
  = (Ok tt,
     {| committed := Some []; session := Some []; detached := false |}).
Proof.
  intros Hdb Hh. unfold main.
  rewrite make_cat_facts_tree_unfold, Hh.
  change (classify_results lower list_of_set []) with (@Ok tree []).
  cbv beta iota. now rewrite clean_write_unfold.
Qed.

End PipelineFacts.

(* ================================================================== *)
(** * The tree written out *)

Lemma dict_set_app_absent {V : Type} (a b : dict V) (k : str) (v : V) :
  dict_get a k = None -> dict_set (a ++ b) k v = a ++ dict_set b k v.
Proof.
  induction a as [|[k0 v0] a IH]; simpl; [reflexivity|].
  destruct (str_eqb k0 k); [discriminate|]. intros H. now rewrite IH.
Qed.

Lemma dict_set_app_present {V : Type} (a b : dict V) (k : str) (v v0 : V) :
  dict_get a k = Some v0 -> dict_set (a ++ b) k v = dict_set a k v ++ b.
Proof.
  induction a as [|[k1 v1] a IH]; simpl; [discriminate|].
  destruct (str_eqb k1 k); [reflexivity|]. intros H. now rewrite IH.
Qed.

Lemma dict_set_absent {V : Type} (d : dict V) (k : str) (v : V) :
  dict_get d k = None -> dict_set d k v = d ++ [(k, v)].
Proof.
  intros H. rewrite <- (app_nil_r d) at 1.
  now rewrite dict_set_app_absent.
Qed.

Lemma first_seen_snoc (l : list str) (x : str) :
  first_seen (l ++ [x])
  = if existsb (str_eqb x) l then first_seen l else first_seen l ++ [x].
Proof.
  induction l as [|a l IH]; simpl; [reflexivity|].
  rewrite IH, (str_eqb_sym x a).
  destruct (existsb (str_eqb x) l); [now rewrite orb_true_r|].
  rewrite orb_false_r, filter_app. simpl.
  destruct (str_eqb a x); simpl; [now rewrite app_nil_r | reflexivity].
Qed.

Lemma first_seen_In (l : list str) (x : str) :
  In x (first_seen l) <-> In x l.
Proof. apply first_seen_spec. Qed.

Lemma first_seen_NoDup (l : list str) : NoDup (first_seen l).
Proof. apply first_seen_spec. Qed.

Lemma block_get_none (l : list entry) (T k : str) :
  T <> k -> T ++ root_suffix <> k -> dict_get (block l T) k = None.
Proof.
  intros H1 H2. apply str_eqb_neq in H1, H2.
  destruct l as [|r l]; [reflexivity|]. unfold block.
  destruct (n_depth r =? 1); simpl; now rewrite ?H1, ?H2.
Qed.

Lemma block_get_self (l : list entry) (T : str) :
  l <> [] -> dict_get (block l T) T = Some (NList l).
Proof.
  intros Hne. destruct l as [|r l]; [contradiction|]. unfold block.
  assert (E : str_eqb (T ++ root_suffix) T = false)
    by (apply str_eqb_neq; intros H; symmetry in H;
        now apply app_root_neq in H).
  destruct (n_depth r =? 1); simpl; now rewrite ?E, str_eqb_refl.
Qed.

Lemma block_set_self (r r' : entry) (l : list entry) (T : str) :
  dict_set (block (r :: l) T) T (NList (r :: l ++ [r']))
  = block (r :: l ++ [r']) T.
Proof.
  unfold block.
  assert (E : str_eqb (T ++ root_suffix) T = false)
    by (apply str_eqb_neq; intros H; symmetry in H;
        now apply app_root_neq in H).
  destruct (n_depth r =? 1); simpl; now rewrite ?E, str_eqb_refl.
Qed.

Section Blocks.

(** The facts filed under each topic, before and after one more fact
    [r] of topic [T]. *)
Variables FU FU' : str -> list entry.
Variable T : str.
Variable r : entry.

Hypothesis FU_step : forall T',
  FU' T' = FU T' ++ (if str_eqb T T' then [r] else []).

Lemma blocks_same (S : list str) :
  ~ In T S ->
  flat_map (fun T' => block (FU' T') T') S
  = flat_map (fun T' => block (FU T') T') S.
Proof.
  induction S as [|T0 S IH]; simpl; [reflexivity|]. intros Hnot.
  rewrite IH by tauto. rewrite FU_step.
  assert (E : str_eqb T T0 = false)
    by (apply str_eqb_neq; intros ->; apply Hnot; now left).
  now rewrite E, app_nil_r.
Qed.

Lemma blocks_get_none (S : list str) (k : str) :
  (forall T', In T' S -> T' <> k /\ T' ++ root_suffix <> k) ->
  dict_get (flat_map (fun T' => block (FU T') T') S) k = None.
Proof.
  induction S as [|T0 S IH]; simpl; [reflexivity|]. intros H.
  rewrite dict_get_app.
  destruct (H T0 (or_introl eq_refl)) as [H1 H2].
  rewrite block_get_none by assumption. apply IH.
  intros T' HT'. apply H. now right.
Qed.

Lemma blocks_get (S : list str) :
  In T S -> FU T <> [] ->
  (forall T', In T' S -> T' ++ root_suffix <> T) ->
  dict_get (flat_map (fun T' => block (FU T') T') S) T = Some (NList (FU T)).
Proof.
  induction S as [|T0 S IH]; simpl; [contradiction|].
  intros Hin Hne Hroot. rewrite dict_get_app.
  destruct (str_eqb_spec T0 T) as [->|Hneq].
  - now rewrite block_get_self.
  - rewrite block_get_none; [|assumption | apply Hroot; now left].
    apply IH; [|assumption|].
    + destruct Hin; [contradiction | assumption].
    + intros T' HT'. apply Hroot. now right.
Qed.

Lemma blocks_update (S : list str) :
  NoDup S -> In T S -> FU T <> [] ->
  (forall T', In T' S -> T' ++ root_suffix <> T) ->
  dict_set (flat_map (fun T' => block (FU T') T') S) T
    (NList (FU T ++ [r]))
  = flat_map (fun T' => block (FU' T') T') S.
Proof.
  induction S as [|T0 S IH]; simpl; [contradiction|].
  intros Hnd Hin Hne Hroot.
  inversion Hnd as [|? ? Hnot Hnd']; subst.
  destruct (str_eqb_spec T0 T) as [->|Hneq].
  - rewrite (dict_set_app_present _ _ _ _ (NList (FU T)))
      by now apply block_get_self.
    rewrite blocks_same by assumption. f_equal.
    rewrite FU_step, str_eqb_refl.
    destruct (FU T) as [|r0 l]; [contradiction|]. apply block_set_self.
  - rewrite dict_set_app_absent
      by (apply block_get_none; [assumption | apply Hroot; now left]).
    rewrite IH; try assumption.
    + f_equal. rewrite FU_step.
      assert (E : str_eqb T T0 = false)
        by (apply str_eqb_neq; congruence).
      now rewrite E, app_nil_r.
    + destruct Hin; [contradiction | assumption].
    + intros T' HT'. apply Hroot. now right.
Qed.

End Blocks.

Section Layout.

Variable lower : str -> str.
Variable list_of_set : list str -> list str.
Variable M : dict topic_vals.

Hypothesis M_well_formed : well_formed M = true.

Lemma filed_under_snoc (T : str) (p : list str) (f : str) :
  filed_under lower list_of_set M T (p ++ [f])
  = filed_under lower list_of_set M T p
    ++ match classified lower list_of_set M f with
       | Some r => if str_eqb (n_topic r) T then [r] else []
       | None => []
       end.
Proof.
  unfold filed_under. rewrite flat_map_app. simpl. now rewrite app_nil_r.
Qed.

Lemma topics_of_snoc (p : list str) (f : str) :
  topics_of lower list_of_set M (p ++ [f])
  = topics_of lower list_of_set M p
    ++ match classified lower list_of_set M f with
       | Some r => [n_topic r]
       | None => []
       end.
Proof.
  unfold topics_of. rewrite flat_map_app. simpl. now rewrite app_nil_r.
Qed.

Lemma filed_under_seen (T : str) (p : list str) :
  In T (topics_of lower list_of_set M p) ->
  filed_under lower list_of_set M T p <> [].
Proof.
  unfold topics_of, filed_under.
  induction p as [|f p IH]; simpl; [contradiction|].
  rewrite in_app_iff.
  destruct (classified lower list_of_set M f) as [r|]; simpl.
  - intros [[<-|[]]|H]; [now rewrite str_eqb_refl|].
    destruct (str_eqb (n_topic r) T); [discriminate | now apply IH].
  - intros [[]|H]. now apply IH.
Qed.

Lemma filed_under_unseen (T : str) (p : list str) :
  ~ In T (topics_of lower list_of_set M p) ->
  filed_under lower list_of_set M T p = [].
Proof.
  unfold topics_of, filed_under.
  induction p as [|f p IH]; simpl; [reflexivity|].
  rewrite in_app_iff. intros Hnot.
  rewrite IH by tauto.
  destruct (classified lower list_of_set M f) as [r|]; [|reflexivity].
  destruct (str_eqb_spec (n_topic r) T) as [E|_]; [|reflexivity].
  exfalso. apply Hnot. left. now left.
Qed.

Lemma classified_plain (f : str) (r : entry) (q : str) :
  classified lower list_of_set M f = Some r ->
  n_topic r <> q ++ root_suffix.
Proof.
  destruct (well_formed_spec M M_well_formed) as (_ & _ & Hroot).
  unfold classified.
  destruct (classify_fact_ok lower list_of_set M M_well_formed f)
    as (st & E & Hst).
  rewrite E. destruct (found st) eqn:Hf; [|discriminate].
  destruct (Hst Hf) as (vals & r' & Hin & Hr & Htop & _).
  rewrite Hr. intros [= <-]. rewrite Htop. now apply (Hroot _ vals).
Qed.

Lemma seen_plain (p : list str) (T q : str) :
  In T (first_seen (topics_of lower list_of_set M p)) ->
  T <> q ++ root_suffix.
Proof.
  intros H. apply (proj1 (first_seen_In _ _)) in H. unfold topics_of in H.
  apply in_flat_map in H as (f & _ & Hf).
  destruct (classified lower list_of_set M f) as [r|] eqn:E; [|contradiction].
  destruct Hf as [<-|[]]. now apply (classified_plain f).
Qed.

(** One more fact: [insert_fact] takes the written-out tree of a batch to
    that of the batch with the fact added. *)
Lemma layout_step (p : list str) (f : str) (st : scan) :
  classify_fact lower list_of_set M f = Ok st ->
  insert_fact (layout lower list_of_set M p) st
  = Ok (layout lower list_of_set M (p ++ [f])).
Proof.
  intros E.
  destruct (classify_fact_ok lower list_of_set M M_well_formed f)
    as (st' & E' & Hst).
  rewrite E in E'. injection E' as <-.
  assert (Ec : classified lower list_of_set M f
               = if found st then fact_results st else None)
    by (unfold classified; now rewrite E).
  unfold insert_fact. destruct (found st) eqn:Hf.
  2:{ f_equal. unfold layout. rewrite topics_of_snoc, Ec, app_nil_r.
      apply flat_map_ext. intros T.
      now rewrite filed_under_snoc, Ec, app_nil_r. }
  destruct (Hst Hf) as (vals & r & _ & Hr & Htop & _).
  rewrite Hr in Ec. unfold get_results. rewrite Hr.
  set (T := topic_name st) in *.
  set (S := first_seen (topics_of lower list_of_set M p)).
  assert (Hstep : forall T',
            filed_under lower list_of_set M T' (p ++ [f])
            = filed_under lower list_of_set M T' p
              ++ (if str_eqb T T' then [r] else []))
    by (intros T'; now rewrite filed_under_snoc, Ec, Htop).
  assert (HplainT : forall q, T <> q ++ root_suffix)
    by (intros q; rewrite <- Htop; now apply (classified_plain f)).
  assert (Hroots : forall T', In T' S -> T' ++ root_suffix <> T)
    by (intros T' _ H; now apply (HplainT T')).
  assert (Hnd : NoDup S) by apply first_seen_NoDup.
  unfold layout. fold S. rewrite topics_of_snoc, Ec, first_seen_snoc.
  rewrite Htop. fold S.
  destruct (existsb (str_eqb T) (topics_of lower list_of_set M p)) eqn:Ex.
  - assert (HinT : In T (topics_of lower list_of_set M p)).
    { apply existsb_exists in Ex as (x & Hx & Exx).
      apply str_eqb_eq in Exx. now subst x. }
    assert (HinS : In T S) by now apply (proj2 (first_seen_In _ _)).
    pose proof (filed_under_seen T p HinT) as Hne.
    rewrite (blocks_get (fun T' => filed_under lower list_of_set M T' p)
               T S HinS Hne Hroots).
    simpl. f_equal.
    apply (blocks_update (fun T' => filed_under lower list_of_set M T' p)
             (fun T' => filed_under lower list_of_set M T' (p ++ [f]))
             T r Hstep S Hnd HinS Hne Hroots).
  - assert (HnotT : ~ In T (topics_of lower list_of_set M p)).
    { intros H.
      assert (X : existsb (str_eqb T) (topics_of lower list_of_set M p)
                  = true)
        by (apply existsb_exists; exists T; split;
            [assumption | apply str_eqb_refl]).
      congruence. }
    assert (HnotS : ~ In T S)
      by (intros H; now apply (proj1 (first_seen_In _ _)) in H).
    assert (Hnone : forall k,
              (forall T', In T' S -> T' <> k /\ T' ++ root_suffix <> k) ->
              dict_get (flat_map
                          (fun T' => block
                             (filed_under lower list_of_set M T' p) T') S) k
              = None)
      by (intros k; apply blocks_get_none).
    rewrite Hnone.
    2:{ intros T' HT'. split; [intros ->; contradiction | now apply Hroots]. }
    simpl. f_equal.
    rewrite flat_map_app. simpl. rewrite app_nil_r.
    rewrite (blocks_same (fun T' => filed_under lower list_of_set M T' p)
               (fun T' => filed_under lower list_of_set M T' (p ++ [f]))
               T r Hstep S HnotS).
    rewrite Hstep, str_eqb_refl, (filed_under_unseen T p HnotT).
    simpl. unfold label. rewrite Htop.
    destruct (n_depth r =? 1).
    + rewrite (dict_set_absent _ (T ++ root_suffix)).
      2:{ apply Hnone. intros T' HT'. split.
          - now apply (seen_plain p).
          - intros H. apply app_root_inj in H. subst T'. contradiction. }
      rewrite dict_set_absent.
      * now rewrite <- app_assoc.
      * rewrite dict_get_app, Hnone.
        2:{ intros T' HT'. split; [intros ->; contradiction|].
            now apply Hroots. }
        simpl.
        destruct (str_eqb_spec (T ++ root_suffix) T) as [H|_];
          [|reflexivity].
        symmetry in H. now apply app_root_neq in H.
    + rewrite dict_set_absent; [reflexivity|].
      apply Hnone. intros T' HT'.
      split; [intros ->; contradiction | now apply Hroots].
Qed.

Lemma classify_loop_layout (facts : list str) :
  forall p,
    classify_loop lower list_of_set M facts (layout lower list_of_set M p)
    = Ok (layout lower list_of_set M (p ++ facts)).
Proof.
  induction facts as [|f facts IH]; intros p; simpl.
  - now rewrite app_nil_r.
  - destruct (classify_fact_ok lower list_of_set M M_well_formed f)
      as (st & E & _).
    rewrite E. simpl. rewrite (layout_step p f st E). simpl.
    rewrite IH. now rewrite <- app_assoc.
Qed.

(** X18: on a well-formed model the tree of a batch is its written-out
    form: the topics come in the order in which their first classified
    fact stands in the batch; each topic has its list of facts in batch
    order, and directly before it, when the first fact has depth 1, its
    root node; nothing else is in the tree. *)
Theorem tree_is_the_layout (facts : list str) :
  determine_facts_hierarchy lower list_of_set facts M
  = Ok (layout lower list_of_set M facts).
Proof.
  unfold determine_facts_hierarchy.
  change (@nil (str * node)) with (layout lower list_of_set M []).
  apply classify_loop_layout.
Qed.

End Layout.

(* ================================================================== *)
(** * The further properties on sample inputs *)

Lemma punctuation_ascii_lower_char (c : char) :
  mem_char c punctuation = false ->
  mem_char (ascii_lower_char c) punctuation = false.
Proof.
  unfold ascii_lower_char.
  destruct (N.leb_spec 65 c), (N.leb_spec c 90); simpl; try tauto.
  intros _. unfold mem_char, punctuation. simpl. split_tests.
Qed.

Lemma ascii_lower_no_punctuation (s : str) :
  Forall (fun c => mem_char c punctuation = false) s ->
  Forall (fun c => mem_char c punctuation = false) (ascii_lower s).
Proof.
  induction 1 as [|c s Hc Hs IH]; simpl; constructor;
    [now apply punctuation_ascii_lower_char | exact IH].
Qed.

(** X1, witness: the shipped model and the fact about the kitten's fur. *)
Lemma first_token_last_topic_witness :
  classified ascii_lower first_seen weighted_topic_vals kitten_fur
  = first_token_last_topic ascii_lower first_seen weighted_topic_vals
      kitten_fur.
Proof.
  apply (classified_first_token_last_topic ascii_lower first_seen
           weighted_topic_vals kitten_fur shipped_weights_below).
Defined.

(** X2, witness: ["Dogs bark."] between two cat facts. *)
Lemma unmatched_fact_witness :
  determine_facts_hierarchy ascii_lower first_seen
    ([softest_fur] ++ py "Dogs bark." :: [kitten_fur]) weighted_topic_vals
  = determine_facts_hierarchy ascii_lower first_seen
      ([softest_fur] ++ [kitten_fur]) weighted_topic_vals.
Proof.
  apply (unmatched_fact_is_dropped ascii_lower first_seen
           weighted_topic_vals (py "Dogs bark.") [softest_fur]
           [kitten_fur]).
  vm_compute. repeat constructor.
Defined.

(** X3, witness: a hyphenated word. *)
Lemma tokens_cut_witness :
  tokenize ascii_lower (py "Well-fed cats")
  = split space (normalize_text ascii_lower (py "Well-fed cats"))
  /\ Forall (fun token =>
       Forall (fun c => mem_char c punctuation = false) token
       /\ ~ In space token)
       (tokenize ascii_lower (py "Well-fed cats")).
Proof.
  apply (tokens_are_cut_at_spaces_only ascii_lower
           ascii_lower_no_punctuation (py "Well-fed cats")).
Defined.

(** X4, witness: a fact with a keyword of the [positive_] topics. *)
Lemma shadowed_topics_witness :
  exists t,
    determine_facts_hierarchy ascii_lower first_seen
      [py "Dogs are great."] weighted_topic_vals = Ok t
    /\ forall r, in_tree r t -> ~ In (n_topic r) shadowed_topics.
Proof.
  apply (shadowed_topics_never_assigned ascii_lower first_seen
           ascii_lower_no_punctuation [py "Dogs are great."]).
Defined.

(** X5, witness: two facts filed under [cat]. *)
Lemma topic_list_witness :
  exists t,
    determine_facts_hierarchy ascii_lower first_seen
      [softest_fur; kittens_appearance] weighted_topic_vals = Ok t
    /\ forall l, dict_get t (py "cat") = Some (NList l)
         <-> l = filed_under ascii_lower first_seen weighted_topic_vals
                   (py "cat") [softest_fur; kittens_appearance]
             /\ l <> [].
Proof.
  apply (topic_list_in_batch_order ascii_lower first_seen
           weighted_topic_vals shipped_well_formed
           [softest_fur; kittens_appearance] (py "cat")).
Defined.

(** X6, witness. *)
Lemma root_nodes_witness :
  exists t,
    determine_facts_hierarchy ascii_lower first_seen
      [softest_fur; kitten_fur] weighted_topic_vals = Ok t
    /\ forall k r, dict_get t k = Some (NDict r) ->
         exists T, k = T ++ root_suffix
           /\ r = {| n_topic := T; n_depth := 0;
                     n_parents := PNone; n_fact := None |}.
Proof.
  apply (root_nodes_are_labels ascii_lower first_seen weighted_topic_vals
           shipped_well_formed [softest_fur; kitten_fur]).
Defined.

(** X7, witness. *)
Lemma facts_from_batch_witness :
  exists t,
    determine_facts_hierarchy ascii_lower first_seen
      [softest_fur; kitten_fur] weighted_topic_vals = Ok t
    /\ forall k l r, dict_get t k = Some (NList l) -> In r l ->
         n_topic r = k
         /\ (exists f, In f [softest_fur; kitten_fur] /\ n_fact r = Some f)
         /\ exists vals, dict_get weighted_topic_vals k = Some vals
              /\ t_weight vals = Some (n_depth r).
Proof.
  apply (classified_facts_come_from_the_batch ascii_lower first_seen
           weighted_topic_vals shipped_well_formed
           [softest_fur; kitten_fur]).
Defined.

(** X8, witness: the tree of two cat facts written to a database that
    holds one old row. *)
Lemma clean_write_witness :
  exists rows,
    save_to_db_clean
      (layout ascii_lower first_seen weighted_topic_vals
         [softest_fur; kittens_appearance])
      {| committed := Some [ {| row_id := 7; row_depth := 1;
                                row_topic := py "person";
                                row_parents := py "person_root";
                                row_fact := py "old" |} ];
         session := Some [ {| row_id := 7; row_depth := 1;
                              row_topic := py "person";
                              row_parents := py "person_root";
                              row_fact := py "old" |} ];
         detached := false |}
    = (Ok tt,
       {| committed := Some rows; session := Some rows; detached := false |})
    /\ map row_id rows
       = count_from 0
           (List.length
              (tree_entries
                 (layout ascii_lower first_seen weighted_topic_vals
                    [softest_fur; kittens_appearance])))
    /\ map row_topic rows
       = map n_topic
           (tree_entries
              (layout ascii_lower first_seen weighted_topic_vals
                 [softest_fur; kittens_appearance]))
    /\ map row_depth rows
       = map n_depth
           (tree_entries
              (layout ascii_lower first_seen weighted_topic_vals
                 [softest_fur; kittens_appearance]))
    /\ map row_parents rows
       = parents_column
           (layout ascii_lower first_seen weighted_topic_vals
              [softest_fur; kittens_appearance])
    /\ map row_fact rows
       = map (fun e => str_of (n_fact e))
           (tree_entries
              (layout ascii_lower first_seen weighted_topic_vals
                 [softest_fur; kittens_appearance])).
Proof.
  apply (clean_write_commits_the_tree
           (layout ascii_lower first_seen weighted_topic_vals
              [softest_fur; kittens_appearance])).
  - reflexivity.
  - vm_compute. reflexivity.
Defined.

(** X10, witness: a table of two rows, one request that repeats a
    name. *)
Lemma fetch_groups_witness :
  (exists res,
     fetch (Some [py "cat"; py "dog"; py "cat"])
       {| committed := None;
          session := Some [ {| row_id := 0; row_depth := 0;
                               row_topic := py "cat";
                               row_parents := py "none";
                               row_fact := py "None" |};
                            {| row_id := 1; row_depth := 1;
                               row_topic := py "person";
                               row_parents := py "person_root";
                               row_fact := py "People like cats." |} ];
          detached := false |}
     = (Ok res,
        {| committed := None;
           session := Some [ {| row_id := 0; row_depth := 0;
                                row_topic := py "cat";
                                row_parents := py "none";
                                row_fact := py "None" |};
                             {| row_id := 1; row_depth := 1;
                                row_topic := py "person";
                                row_parents := py "person_root";
                                row_fact := py "People like cats." |} ];
           detached := false |})
     /\ (forall k, In k [py "cat"; py "dog"; py "cat"] ->
           dict_get res k
           = Some (map real_dict_row
                     (filter (fun r => str_eqb (row_topic r) k)
                        [ {| row_id := 0; row_depth := 0;
                             row_topic := py "cat";
                             row_parents := py "none";
                             row_fact := py "None" |};
                          {| row_id := 1; row_depth := 1;
                             row_topic := py "person";
                             row_parents := py "person_root";
                             row_fact := py "People like cats." |} ])))
     /\ (forall k, ~ In k [py "cat"; py "dog"; py "cat"] ->
           dict_get res k = None))
  /\ fetch None
       {| committed := None;
          session := Some [ {| row_id := 0; row_depth := 0;
                               row_topic := py "cat";
                               row_parents := py "none";
                               row_fact := py "None" |};
                            {| row_id := 1; row_depth := 1;
                               row_topic := py "person";
                               row_parents := py "person_root";
                               row_fact := py "People like cats." |} ];
          detached := false |}
     = (Ok [(py "all",
             map real_dict_row
               [ {| row_id := 0; row_depth := 0;
                    row_topic := py "cat";
                    row_parents := py "none";
                    row_fact := py "None" |};
                 {| row_id := 1; row_depth := 1;
                    row_topic := py "person";
                    row_parents := py "person_root";
                    row_fact := py "People like cats." |} ])],
        {| committed := None;
           session := Some [ {| row_id := 0; row_depth := 0;
                                row_topic := py "cat";
                                row_parents := py "none";
                                row_fact := py "None" |};
                             {| row_id := 1; row_depth := 1;
                                row_topic := py "person";
                                row_parents := py "person_root";
                                row_fact := py "People like cats." |} ];
           detached := false |}).
Proof.
  apply (fetch_groups_rows_by_topic
           {| committed := None;
              session := Some [ {| row_id := 0; row_depth := 0;
                                   row_topic := py "cat";
                                   row_parents := py "none";
                                   row_fact := py "None" |};
                                {| row_id := 1; row_depth := 1;
                                   row_topic := py "person";
                                   row_parents := py "person_root";
                                   row_fact := py "People like cats." |} ];
              detached := false |}
           [ {| row_id := 0; row_depth := 0;
                row_topic := py "cat";
                row_parents := py "none";
                row_fact := py "None" |};
             {| row_id := 1; row_depth := 1;
                row_topic := py "person";
                row_parents := py "person_root";
                row_fact := py "People like cats." |} ]
           [py "cat"; py "dog"; py "cat"]).
  reflexivity.
Defined.

(** X11, witness. *)
Lemma root_keys_witness :
  exists t,
    determine_facts_hierarchy ascii_lower first_seen
      [softest_fur; kittens_appearance] weighted_topic_vals = Ok t
    /\ forall db db' T,
         session db = committed db ->
         save_to_db_clean t db = (Ok tt, db') ->
         fetch (Some [T ++ root_suffix]) db'
         = (Ok [(T ++ root_suffix, [])], db')
         /\ exists rows,
              committed db' = Some rows
              /\ Forall (fun r =>
                   is_name weighted_topic_vals (row_topic r) = true) rows.
Proof.
  apply (root_keys_fetch_nothing ascii_lower first_seen weighted_topic_vals
           shipped_well_formed [softest_fur; kittens_appearance]).
Defined.

(** X12, witness: the request [cat,person]. *)
Lemma get_cat_facts_witness :
  get_cat_facts (join [comma] [py "cat"; py "person"])
  = fetch (Some [py "cat"; py "person"])
  /\ get_cat_facts (py "all") = fetch None.
Proof.
  apply (get_cat_facts_by_names [py "cat"; py "person"]).
  - discriminate.
  - repeat constructor; vm_compute; intuition discriminate.
  - discriminate.
Defined.

(** X16, witness: no reply, a table of one row. *)
Lemma failed_fetch_witness :
  main ascii_lower first_seen [Unreachable]
    {| committed := Some [ {| row_id := 0; row_depth := 1;
                              row_topic := py "cat";
                              row_parents := py "cat_root";
                              row_fact := py "Cats purr." |} ];
       session := Some [ {| row_id := 0; row_depth := 1;
                            row_topic := py "cat";
                            row_parents := py "cat_root";
                            row_fact := py "Cats purr." |} ];
       detached := false |}
  = (Ok tt,
     {| committed := Some []; session := Some []; detached := false |}).
Proof.
  apply (failed_fetch_empties_the_table ascii_lower first_seen [Unreachable]);
    reflexivity.
Defined.

(** X18, witness. *)
Lemma tree_layout_witness :
  determine_facts_hierarchy ascii_lower first_seen
    [kitten_fur; softest_fur; kittens_appearance] weighted_topic_vals
  = Ok (layout ascii_lower first_seen weighted_topic_vals
          [kitten_fur; softest_fur; kittens_appearance]).
Proof.
  apply (tree_is_the_layout ascii_lower first_seen weighted_topic_vals
           shipped_well_formed).
Defined.

(* ================================================================== *)
(** * The outcome of the script *)


Section ScriptOutcome.

Variable lower : str -> str.
Variable list_of_set : list str -> list str.






End ScriptOutcome.

(** X9, witness: the tree of a single fact, written to a database
    without the table. *)
Lemma clean_write_iff_witness :
  (fst (save_to_db_clean
          (layout ascii_lower first_seen weighted_topic_vals [softest_fur])
          {| committed := None; session := None; detached := false |})
   = Ok tt
   <-> writable
         (layout ascii_lower first_seen weighted_topic_vals [softest_fur])
       = true)
  /\ (writable
        (layout ascii_lower first_seen weighted_topic_vals [softest_fur])
      = false ->
      exists pre k n post rows,
        layout ascii_lower first_seen weighted_topic_vals [softest_fur]
        = pre ++ (k, n) :: post
        /\ writable pre = true
        /\ short_list n = true
        /\ save_to_db_clean
             (layout ascii_lower first_seen weighted_topic_vals
                [softest_fur])
             {| committed := None; session := None; detached := false |}
           = (Raise TypeError,
              {| committed := Some rows; session := Some rows;
                 detached := true |})
        /\ map row_id rows = count_from 0 (List.length (tree_entries pre))
        /\ map row_topic rows = map n_topic (tree_entries pre)
        /\ map row_depth rows = map n_depth (tree_entries pre)
        /\ map row_parents rows = parents_column pre
        /\ map row_fact rows
           = map (fun e => str_of (n_fact e)) (tree_entries pre)).
Proof.
  apply (clean_write_succeeds_iff_writable
           (layout ascii_lower first_seen weighted_topic_vals [softest_fur])
           {| committed := None; session := None; detached := false |}).
  reflexivity.
Defined.


(** The script run on replies of the three kinds, each on a database
    without the table and on one that holds an old row: one string fact
    (the row of the root node is committed in the first store only), a
    number among the facts (nothing is sent), two facts of one topic. *)
Lemma script_runs :
  main ascii_lower first_seen [page [JString softest_fur]]
    {| committed := None; session := None; detached := false |}
  = (Raise TypeError,
     {| committed := Some [ {| row_id := 0; row_depth := 0;
                               row_topic := py "cat";
                               row_parents := py "none";
                               row_fact := py "None" |} ];
        session := Some [ {| row_id := 0; row_depth := 0;
                             row_topic := py "cat";
                             row_parents := py "none";
                             row_fact := py "None" |} ];
        detached := true |})
  /\ main ascii_lower first_seen [page [JString softest_fur]]
       {| committed := Some [ {| row_id := 7; row_depth := 1;
                                 row_topic := py "person";
                                 row_parents := py "person_root";
                                 row_fact := py "old" |} ];
          session := Some [ {| row_id := 7; row_depth := 1;
                               row_topic := py "person";
                               row_parents := py "person_root";
                               row_fact := py "old" |} ];
          detached := false |}
     = (Raise TypeError,
        {| committed := Some [ {| row_id := 7; row_depth := 1;
                                  row_topic := py "person";
                                  row_parents := py "person_root";
                                  row_fact := py "old" |} ];
           session := Some [ {| row_id := 0; row_depth := 0;
                                row_topic := py "cat";
                                row_parents := py "none";
                                row_fact := py "None" |} ];
           detached := false |})
  /\ main ascii_lower first_seen
       [page [JString softest_fur; JNumber (py "5");
              JString kittens_appearance]]
       {| committed := None; session := None; detached := false |}
     = (Raise AttributeError,
        {| committed := None; session := None; detached := false |})
  /\ fst (main ascii_lower first_seen
            [page [JString softest_fur; JString kittens_appearance]]
            {| committed := None; session := None; detached := false |})
     = Ok tt.
Proof. repeat split; vm_compute; reflexivity. Qed.

